(** * runall.py: the relayer end-to-end driver

    A shallow embedding of [runall.py]: the typed command/response
    framework ([Cmd], [CmdResult], [from_dict]), the executor [Cmd.run]
    and the orchestration functions ([create_update_query_client],
    [connection_handshake], [run]).

    Python values that reach the program are JSON-decoded values; they
    are modelled by [Any].  The relayer child process and [json.loads]
    are the two external collaborators; both are section variables.
    Effects (spawning the child, logging, sleeping, printing) are
    recorded in an event trace. *)

From Stdlib Require Import Ascii String DecimalString.
From Stdlib Require Import List ZArith NArith Bool Lia.
From Stdlib Require Import Floats.SpecFloat.
Import ListNotations.
Set Warnings "-register-all".
Local Open Scope list_scope.

(** ** Python [str] *)

(** A Python string is a sequence of Unicode code points. *)
Definition str := list N.

(** A literal of the source text (all of them are ASCII). *)
Definition lit (x : string) : str := map N_of_ascii (list_ascii_of_string x).
Arguments lit x%_string.

Fixpoint str_eqb (a b : str) : bool :=
  match a, b with
  | [], [] => true
  | x :: a', y :: b' => N.eqb x y && str_eqb a' b'
  | _, _ => false
  end.

(** [sep.join(items)] on a list already known to hold strings. *)
Fixpoint str_join (sep : str) (items : list str) : str :=
  match items with
  | [] => []
  | [x] => x
  | x :: rest => x ++ sep ++ str_join sep rest
  end.

(** [s.split(sep)] for a one-character separator: every occurrence
    splits, so consecutive separators give empty pieces and the empty
    string gives one empty piece. *)
Fixpoint str_split (sep : N) (s : str) : list str :=
  match s with
  | [] => [[]]
  | ch :: s' =>
      if N.eqb ch sep then [] :: str_split sep s'
      else match str_split sep s' with
           | [] => [[ch]]
           | piece :: pieces => (ch :: piece) :: pieces
           end
  end.

(** The line boundaries of [str.splitlines]: \n \v \f \r, the
    separators \x1c \x1d \x1e, NEL \x85, and U+2028, U+2029. *)
Definition linebreaks : list N := [10; 11; 12; 13; 28; 29; 30; 133; 8232; 8233]%N.

Definition is_linebreak (ch : N) : bool := existsb (N.eqb ch) linebreaks.

(** [s.splitlines()]: the lines without their terminators; \r\n is one
    terminator; a terminator at the very end opens no further line. *)
Fixpoint splitlines (s : str) : list str :=
  match s with
  | [] => []
  | ch :: s' =>
      if is_linebreak ch then
        match s' with
        | ch2 :: s'' =>
            if N.eqb ch 13 && N.eqb ch2 10 then [] :: splitlines s''
            else [] :: splitlines s'
        | [] => [] :: splitlines s'
        end
      else match splitlines s' with
           | [] => [[ch]]
           | line :: lines => (ch :: line) :: lines
           end
  end.

(** [l[-1:]]: the last element as a list, the empty list if there is none. *)
Definition slice_last {A} (l : list A) : list A := skipn (length l - 1) l.

(** [str(n)] for an [int]. *)
Definition str_of_int (n : Z) : str := lit (NilZero.string_of_int (Z.to_int n)).

(** ** JSON-decoded Python values *)

Inductive Any : Type :=
| PyNone
| PyBool (b : bool)
| PyInt (n : Z)
| PyFloat (f : spec_float)
| PyStr (s : str)
| PyList (items : list Any)
| PyDict (entries : list (str * Any)).

(** [d.get(key)] on the entries of a dict: [None] when the key is absent. *)
Fixpoint dict_get (entries : list (str * Any)) (key : str) : option Any :=
  match entries with
  | [] => None
  | (k, v) :: rest => if str_eqb k key then Some v else dict_get rest key
  end.

(** Truth value testing: [None], [False], zero of any numeric type, and
    empty strings, lists and dicts are false. *)
Definition truthy (v : Any) : bool :=
  match v with
  | PyNone => false
  | PyBool b => b
  | PyInt n => negb (Z.eqb n 0)
  | PyFloat (S754_zero _) => false
  | PyFloat _ => true
  | PyStr s => match s with [] => false | _ => true end
  | PyList l => match l with [] => false | _ => true end
  | PyDict d => match d with [] => false | _ => true end
  end.

(** [x or y]. *)
Definition py_or (x y : Any) : Any := if truthy x then x else y.

(** [d.get(key) or default]: an absent key reads as [None]. *)
Definition get_or (entries : list (str * Any)) (key : str) (default : Any) : Any :=
  py_or (match dict_get entries key with Some v => v | None => PyNone end) default.

(** Exact comparison of an [int] with a [float]. *)
Definition int_eq_float (n : Z) (f : spec_float) : bool :=
  match f with
  | S754_zero _ => Z.eqb n 0
  | S754_finite sgn m e =>
      let mant := if sgn then Z.neg m else Z.pos m in
      if Z.leb 0 e then Z.eqb n (mant * 2 ^ e) else Z.eqb (n * 2 ^ (- e)) mant
  | _ => false
  end.

(** Numbers compare by value across [bool], [int] and [float]. *)
Inductive Num := NumInt (n : Z) | NumFloat (f : spec_float).

Definition as_num (v : Any) : option Num :=
  match v with
  | PyBool b => Some (NumInt (Z.b2z b))
  | PyInt n => Some (NumInt n)
  | PyFloat f => Some (NumFloat f)
  | _ => None
  end.

Definition num_eq (a b : Num) : bool :=
  match a, b with
  | NumInt x, NumInt y => Z.eqb x y
  | NumInt x, NumFloat f | NumFloat f, NumInt x => int_eq_float x f
  | NumFloat f, NumFloat g => SFeqb f g
  end.

(** [a == b] on decoded values (two values from different replies, so
    no object is compared with itself). *)
Fixpoint py_eq (a b : Any) : bool :=
  match a with
  | PyNone => match b with PyNone => true | _ => false end
  | PyStr s => match b with PyStr t => str_eqb s t | _ => false end
  | PyList xs =>
      match b with
      | PyList ys =>
          (fix all2 (xs ys : list Any) : bool :=
             match xs, ys with
             | [], [] => true
             | x :: xs', y :: ys' => py_eq x y && all2 xs' ys'
             | _, _ => false
             end) xs ys
      | _ => false
      end
  | PyDict d =>
      match b with
      | PyDict e =>
          Nat.eqb (length d) (length e) &&
          (fix each (d : list (str * Any)) : bool :=
             match d with
             | [] => true
             | (k, v) :: d' =>
                 match dict_get e k with
                 | Some w => py_eq v w
                 | None => false
                 end && each d'
             end) d
      | _ => false
      end
  | _ =>
      match as_num a, as_num b with
      | Some x, Some y => num_eq x y
      | _, _ => false
      end
  end.

Definition py_ne (a b : Any) : bool := negb (py_eq a b).

(** ** Identifiers and result types *)

(** [NewType]s of [str]: nothing checks them at run time. *)
Definition ChainId := Any.
Definition ClientId := Any.
Definition ConnectionId := Any.

Record Height := mkHeight { revision_height : Any; revision_number : Any }.

Module TxCreateClientRes.
Record t := mk { client_id : ClientId }.
End TxCreateClientRes.

Module TxUpdateClientRes.
Record t := mk { consensus_height : Height }.
End TxUpdateClientRes.

Module QueryClientStateRes.
Record t := mk { latest_height : Height }.
End QueryClientStateRes.

Module TxConnInitRes.
Record t := mk { connection_id : ConnectionId }.
End TxConnInitRes.

Module TxConnTryRes.
Record t := mk { connection_id : ConnectionId }.
End TxConnTryRes.

Module TxConnAckRes.
Record t := mk { connection_id : ConnectionId }.
End TxConnAckRes.

Module TxConnConfirmRes.
Record t := mk { connection_id : ConnectionId }.
End TxConnConfirmRes.

(** ** Command descriptors *)

Module TxCreateClient.
Record t := mk { dst_chain_id : ChainId; src_chain_id : ChainId }.
End TxCreateClient.

Module TxUpdateClient.
Record t := mk { dst_chain_id : ChainId; src_chain_id : ChainId;
                   dst_client_id : ClientId }.
End TxUpdateClient.

Module QueryClientState.
Record t := mk { chain_id : ChainId; client_id : ClientId;
                   height : option Z; proof : bool }.
End QueryClientState.

Module TxConnInit.
Record t := mk { src_chain_id : ChainId; dst_chain_id : ChainId;
                   src_client_id : ClientId; dst_client_id : ClientId }.
End TxConnInit.

Module TxConnTry.
Record t := mk { src_chain_id : ChainId; dst_chain_id : ChainId;
                   src_client_id : ClientId; dst_client_id : ClientId;
                   src_conn_id : ConnectionId }.
End TxConnTry.

Module TxConnAck.
Record t := mk { src_chain_id : ChainId; dst_chain_id : ChainId;
                   src_client_id : ClientId; dst_client_id : ClientId;
                   src_conn_id : ConnectionId; dst_conn_id : ConnectionId }.
End TxConnAck.

Module TxConnConfirm.
Record t := mk { src_chain_id : ChainId; dst_chain_id : ChainId;
                   src_client_id : ClientId; dst_client_id : ClientId;
                   src_conn_id : ConnectionId; dst_conn_id : ConnectionId }.
End TxConnConfirm.

(** A command of any class, as held by the [cmd: 'Cmd'] attributes. *)
Inductive AnyCmd : Type :=
| ACreateClient (c : TxCreateClient.t)
| AUpdateClient (c : TxUpdateClient.t)
| AQueryClientState (c : QueryClientState.t)
| AConnInit (c : TxConnInit.t)
| AConnTry (c : TxConnTry.t)
| AConnAck (c : TxConnAck.t)
| AConnConfirm (c : TxConnConfirm.t).

(** ** Exceptions *)

Inductive Exception : Type :=
| ExpectedSuccess (cmd : AnyCmd) (status : Any) (result : Any)
| KeyError (key : Any)
| IndexError
| TypeError
| AttributeError
| JSONDecodeError.

Inductive Result (X : Type) : Type :=
| Ok (x : X)
| Err (e : Exception).
Arguments Ok {X} x.
Arguments Err {X} e.

Definition rbind {X Y} (r : Result X) (k : X -> Result Y) : Result Y :=
  match r with
  | Ok x => k x
  | Err e => Err e
  end.

Declare Scope result_scope.
Delimit Scope result_scope with result.
Notation "x <- r ;; k" := (rbind r (fun x => k))
  (at level 61, r at next level, right associativity) : result_scope.

(** [o[i]] for an integer index. *)
Definition getitem_int (o : Any) (i : Z) : Result Any :=
  match o with
  | PyList l =>
      let j := if Z.ltb i 0 then (i + Z.of_nat (length l))%Z else i in
      if Z.ltb j 0 then Err IndexError
      else match nth_error l (Z.to_nat j) with
           | Some v => Ok v
           | None => Err IndexError
           end
  | PyStr s =>
      let j := if Z.ltb i 0 then (i + Z.of_nat (length s))%Z else i in
      if Z.ltb j 0 then Err IndexError
      else match nth_error s (Z.to_nat j) with
           | Some ch => Ok (PyStr [ch])
           | None => Err IndexError
           end
  | PyDict _ => Err (KeyError (PyInt i))
  | _ => Err TypeError
  end.

(** [o[key]] for a string key. *)
Definition getitem_str (o : Any) (key : str) : Result Any :=
  match o with
  | PyDict d =>
      match dict_get d key with
      | Some v => Ok v
      | None => Err (KeyError (PyStr key))
      end
  | _ => Err TypeError
  end.

(** [sep.join(items)] on arbitrary values: a non-string item is a
    [TypeError]. *)
Fixpoint as_strs (items : list Any) : option (list str) :=
  match items with
  | [] => Some []
  | PyStr s :: rest =>
      match as_strs rest with
      | Some l => Some (s :: l)
      | None => None
      end
  | _ :: _ => None
  end.

Definition py_join (sep : str) (items : list Any) : Result str :=
  match as_strs items with
  | Some l => Ok (str_join sep l)
  | None => Err TypeError
  end.

(** ** [from_dict] *)

(** [from_dict(klass, dikt)]: [is_dataclass(klass)] is decided by the
    instance found for [klass]; a dataclass reads each of its fields, in
    declaration order, by name; any other class returns [dikt] as it is. *)
Class FromDict (klass : Type) := from_dict : Any -> Result klass.

#[export] Instance from_dict_leaf : FromDict Any := fun dikt => Ok dikt.

Local Open Scope result_scope.

#[export] Instance from_dict_Height : FromDict Height := fun dikt =>
  d1 <- getitem_str dikt (lit "revision_height") ;;
  rh <- from_dict (klass := Any) d1 ;;
  d2 <- getitem_str dikt (lit "revision_number") ;;
  rn <- from_dict (klass := Any) d2 ;;
  Ok (mkHeight rh rn).

#[export] Instance from_dict_TxCreateClientRes : FromDict TxCreateClientRes.t := fun dikt =>
  d <- getitem_str dikt (lit "client_id") ;;
  v <- from_dict (klass := Any) d ;;
  Ok (TxCreateClientRes.mk v).

#[export] Instance from_dict_TxUpdateClientRes : FromDict TxUpdateClientRes.t := fun dikt =>
  d <- getitem_str dikt (lit "consensus_height") ;;
  v <- from_dict (klass := Height) d ;;
  Ok (TxUpdateClientRes.mk v).

#[export] Instance from_dict_QueryClientStateRes : FromDict QueryClientStateRes.t := fun dikt =>
  d <- getitem_str dikt (lit "latest_height") ;;
  v <- from_dict (klass := Height) d ;;
  Ok (QueryClientStateRes.mk v).

#[export] Instance from_dict_TxConnInitRes : FromDict TxConnInitRes.t := fun dikt =>
  d <- getitem_str dikt (lit "connection_id") ;;
  v <- from_dict (klass := Any) d ;;
  Ok (TxConnInitRes.mk v).

#[export] Instance from_dict_TxConnTryRes : FromDict TxConnTryRes.t := fun dikt =>
  d <- getitem_str dikt (lit "connection_id") ;;
  v <- from_dict (klass := Any) d ;;
  Ok (TxConnTryRes.mk v).

#[export] Instance from_dict_TxConnAckRes : FromDict TxConnAckRes.t := fun dikt =>
  d <- getitem_str dikt (lit "connection_id") ;;
  v <- from_dict (klass := Any) d ;;
  Ok (TxConnAckRes.mk v).

#[export] Instance from_dict_TxConnConfirmRes : FromDict TxConnConfirmRes.t := fun dikt =>
  d <- getitem_str dikt (lit "connection_id") ;;
  v <- from_dict (klass := Any) d ;;
  Ok (TxConnConfirmRes.mk v).

(** [from_dict(klass, result[0][tag])]. *)
Definition from_tagged {klass} `{FromDict klass} (tag : string) (result : Any) : Result klass :=
  first <- getitem_int result 0 ;;
  dikt <- getitem_str first (lit tag) ;;
  from_dict dikt.

(** ** The [Cmd] interface and its seven classes *)

Class Cmd (C T : Type) := {
  name : C -> str;
  args : C -> list Any;
  process : C -> Any -> Result T;
  upcast : C -> AnyCmd
}.

#[export] Instance Cmd_TxCreateClient : Cmd TxCreateClient.t TxCreateClientRes.t := {|
  name := fun _ => lit "tx raw create-client";
  args := fun self => [TxCreateClient.dst_chain_id self; TxCreateClient.src_chain_id self];
  process := fun _ result => from_tagged "CreateClient" result;
  upcast := ACreateClient
|}.

#[export] Instance Cmd_TxUpdateClient : Cmd TxUpdateClient.t TxUpdateClientRes.t := {|
  name := fun _ => lit "tx raw update-client";
  args := fun self => [TxUpdateClient.dst_chain_id self; TxUpdateClient.src_chain_id self;
                       TxUpdateClient.dst_client_id self];
  process := fun _ result => from_tagged "UpdateClient" result;
  upcast := AUpdateClient
|}.

#[export] Instance Cmd_QueryClientState : Cmd QueryClientState.t QueryClientStateRes.t := {|
  name := fun _ => lit "query client state";
  args := fun self =>
    let args := [] in
    let args := match QueryClientState.height self with
                | Some h => args ++ [PyStr (lit "--height"); PyStr (str_of_int h)]
                | None => args
                end in
    let args := if QueryClientState.proof self then args ++ [PyStr (lit "--proof")] else args in
    args ++ [QueryClientState.chain_id self; QueryClientState.client_id self];
  process := fun _ result => first <- getitem_int result 0 ;; from_dict first;
  upcast := AQueryClientState
|}.

#[export] Instance Cmd_TxConnInit : Cmd TxConnInit.t TxConnInitRes.t := {|
  name := fun _ => lit "tx raw conn-init";
  args := fun self => [TxConnInit.dst_chain_id self; TxConnInit.src_chain_id self;
                       TxConnInit.dst_client_id self; TxConnInit.src_client_id self;
                       PyStr (lit "default-conn"); PyStr (lit "default-conn")];
  process := fun _ result => from_tagged "OpenInitConnection" result;
  upcast := AConnInit
|}.

#[export] Instance Cmd_TxConnTry : Cmd TxConnTry.t TxConnTryRes.t := {|
  name := fun _ => lit "tx raw conn-try";
  args := fun self => [TxConnTry.dst_chain_id self; TxConnTry.src_chain_id self;
                       TxConnTry.dst_client_id self; TxConnTry.src_client_id self;
                       PyStr (lit "default-conn"); TxConnTry.src_conn_id self];
  process := fun _ result => from_tagged "OpenTryConnection" result;
  upcast := AConnTry
|}.

#[export] Instance Cmd_TxConnAck : Cmd TxConnAck.t TxConnAckRes.t := {|
  name := fun _ => lit "tx raw conn-ack";
  args := fun self => [TxConnAck.dst_chain_id self; TxConnAck.src_chain_id self;
                       TxConnAck.dst_client_id self; TxConnAck.src_client_id self;
                       TxConnAck.dst_conn_id self; TxConnAck.src_conn_id self];
  process := fun _ result => from_tagged "OpenAckConnection" result;
  upcast := AConnAck
|}.

#[export] Instance Cmd_TxConnConfirm : Cmd TxConnConfirm.t TxConnConfirmRes.t := {|
  name := fun _ => lit "tx raw conn-confirm";
  args := fun self => [TxConnConfirm.dst_chain_id self; TxConnConfirm.src_chain_id self;
                       TxConnConfirm.dst_client_id self; TxConnConfirm.src_client_id self;
                       TxConnConfirm.dst_conn_id self; TxConnConfirm.src_conn_id self];
  process := fun _ result => from_tagged "OpenConfirmConnection" result;
  upcast := AConnConfirm
|}.

(** [Cmd.to_cmd]. *)
Definition to_cmd {C T} `{Cmd C T} (self : C) : Result str :=
  joined <- py_join (lit " ") (args self) ;;
  Ok (name self ++ lit " " ++ joined).

(** ** [CmdResult] *)

Record CmdResult (C : Type) := mkCmdResult { cmd : C; result : Any }.
Arguments mkCmdResult {C} cmd result.
Arguments cmd {C} _.
Arguments result {C} _.

(** [CmdResult.success]: [self.result.get] exists on a dict only. *)
Definition success {C T} `{Cmd C T} (self : CmdResult C) : Result T :=
  match result self with
  | PyDict reply =>
      let status := get_or reply (lit "status") (PyStr (lit "unknown")) in
      let result := get_or reply (lit "result") (PyDict []) in
      if py_eq status (PyStr (lit "success")) then process (cmd self) result
      else Err (ExpectedSuccess (upcast (cmd self)) status result)
  | _ => Err AttributeError
  end.

Local Close Scope result_scope.

(** ** Effects *)

Inductive Level := DEBUG | INFO | ERROR.

(** A log message is kept as the pieces of its f-string: the literal
    text and the objects interpolated into it ([str()] of a decoded value
    or of a dataclass does not raise). *)
Inductive Frag : Type :=
| Lit (text : str)
| Fmt (v : Any)
| FmtHeight (h : Height).

Inductive Event : Type :=
| Logged (level : Level) (message : list Frag)
| Spawned (cmd : AnyCmd) (argv : list str) (stdout : str)
| Slept (millis : N)
| Printed (text : str).

Declare Scope prog_scope.
Delimit Scope prog_scope with prog.

Section Program.

(** [json.loads]: [None] stands for [JSONDecodeError]. *)
Variable loads : str -> option Any.

(** The relayer: each child process takes its argument vector and the
    state the chains are in, runs to completion, and leaves its
    captured standard output. *)
Variable Agent : Type.
Variable relayer : Agent -> list str -> Agent * str.

(** A computation threads the agent, may raise, and emits events. *)
Definition M (X : Type) : Type := Agent -> Result X * Agent * list Event.

Definition ret {X} (x : X) : M X := fun a => (Ok x, a, []).

Definition raise {X} (e : Exception) : M X := fun a => (Err e, a, []).

Definition bind {X Y} (m : M X) (k : X -> M Y) : M Y := fun a =>
  match m a with
  | (Ok x, a1, t1) =>
      match k x a1 with
      | (r, a2, t2) => (r, a2, t1 ++ t2)
      end
  | (Err e, a1, t1) => (Err e, a1, t1)
  end.

Definition lift {X} (r : Result X) : M X :=
  match r with
  | Ok x => ret x
  | Err e => raise e
  end.

Definition emit (ev : Event) : M unit := fun a => (Ok tt, a, [ev]).

Notation "x <- m ;; k" := (bind m (fun x => k))
  (at level 61, m at next level, right associativity) : prog_scope.
Notation "m ;; k" := (bind m (fun _ => k))
  (at level 61, right associativity) : prog_scope.
Local Open Scope prog_scope.

Definition log (level : Level) (message : list Frag) : M unit :=
  emit (Logged level message).

(** [subprocess.run(full_cmd, capture_output=True, text=True).stdout]:
    the exit status is not looked at. *)
Definition subprocess_run (self : AnyCmd) (full_cmd : list Any) : M str :=
  match as_strs full_cmd with
  | Some argv => fun a =>
      match relayer a argv with
      | (a', stdout) => (Ok stdout, a', [Spawned self argv stdout])
      end
  | None => raise TypeError
  end.

Definition json_loads (text : str) : Result Any :=
  match loads text with
  | Some v => Ok v
  | None => Err JSONDecodeError
  end.

(** The line of the output that [Cmd.run] decodes. *)
Definition last_line (stdout : str) : str :=
  let lines := splitlines stdout in
  str_join [] (slice_last lines).

(** The argument vector [Cmd.run] builds: [config] is the configuration
    path as the f-string renders it. *)
Definition full_cmd {C T} `{Cmd C T} (self : C) (config : str) : list Any :=
  let full_cmd :=
    map PyStr (str_split 32 (lit "cargo run --bin relayer -- -c " ++ config)) in
  let full_cmd := full_cmd ++ map PyStr (str_split 32 (name self)) in
  full_cmd ++ args self.

(** [Cmd.run]. *)
Definition Cmd_run {C T} `{Cmd C T} (self : C) (config : str) : M (CmdResult C) :=
  let full_cmd := full_cmd self config in
  joined <- lift (py_join (lit " ") full_cmd) ;;
  log DEBUG [Lit joined] ;;
  stdout <- subprocess_run (upcast self) full_cmd ;;
  log DEBUG [Lit (last_line stdout)] ;;
  decoded <- lift (json_loads (last_line stdout)) ;;
  ret (mkCmdResult self decoded).

(** [cmd.run(c).success()]. *)
Definition run_success {C T} `{Cmd C T} (self : C) (c : str) : M T :=
  res <- Cmd_run self c ;;
  lift (success res).

(** [split()]. *)
Definition split : M unit :=
  emit (Slept 500) ;;
  emit (Printed (lit (String "010"%char EmptyString))).

(** *** Client creation and manipulation *)

Definition create_client (c : str) (dst src : ChainId) : M TxCreateClientRes.t :=
  let cmd := TxCreateClient.mk dst src in
  client <- run_success cmd c ;;
  log INFO [Lit (lit "Created client: "); Fmt (TxCreateClientRes.client_id client)] ;;
  ret client.

Definition update_client (c : str) (dst src : ChainId) (client_id : ClientId)
  : M TxUpdateClientRes.t :=
  let cmd := TxUpdateClient.mk dst src client_id in
  res <- run_success cmd c ;;
  log INFO [Lit (lit "Updated client to: ");
            FmtHeight (TxUpdateClientRes.consensus_height res)] ;;
  ret res.

Definition query_client_state (c : str) (chain_id : ChainId) (client_id : ClientId)
  : M QueryClientStateRes.t :=
  let cmd := QueryClientState.mk chain_id client_id None false in
  res <- run_success cmd c ;;
  log INFO [Lit (lit "Client is at: ");
            FmtHeight (QueryClientStateRes.latest_height res)] ;;
  ret res.

Definition create_update_query_client (c : str) (dst src : ChainId) : M ClientId :=
  client <- create_client c dst src ;;
  split ;;
  query_client_state c dst (TxCreateClientRes.client_id client) ;;
  split ;;
  update_client c dst src (TxCreateClientRes.client_id client) ;;
  split ;;
  query_client_state c dst (TxCreateClientRes.client_id client) ;;
  split ;;
  ret (TxCreateClientRes.client_id client).

(** *** Connection handshake *)

Definition conn_init (c : str) (src dst : ChainId) (src_client dst_client : ClientId)
  : M ConnectionId :=
  let cmd := TxConnInit.mk src dst src_client dst_client in
  res <- run_success cmd c ;;
  log INFO [Lit (lit "ConnOpen init submitted to "); Fmt dst;
            Lit (lit " and obtained connection id ");
            Fmt (TxConnInitRes.connection_id res)] ;;
  ret (TxConnInitRes.connection_id res).

Definition conn_try (c : str) (src dst : ChainId) (src_client dst_client : ClientId)
  (src_conn : ConnectionId) : M ConnectionId :=
  let cmd := TxConnTry.mk src dst src_client dst_client src_conn in
  res <- run_success cmd c ;;
  log INFO [Lit (lit "ConnOpen try submitted to "); Fmt dst;
            Lit (lit " and obtained connection id ");
            Fmt (TxConnTryRes.connection_id res)] ;;
  ret (TxConnTryRes.connection_id res).

Definition conn_ack (c : str) (src dst : ChainId) (src_client dst_client : ClientId)
  (src_conn dst_conn : ConnectionId) : M ConnectionId :=
  let cmd := TxConnAck.mk src dst src_client dst_client src_conn dst_conn in
  res <- run_success cmd c ;;
  log INFO [Lit (lit "ConnOpen ack submitted to "); Fmt dst;
            Lit (lit " and obtained connection id ");
            Fmt (TxConnAckRes.connection_id res)] ;;
  ret (TxConnAckRes.connection_id res).

Definition conn_confirm (c : str) (src dst : ChainId) (src_client dst_client : ClientId)
  (src_conn dst_conn : ConnectionId) : M ConnectionId :=
  let cmd := TxConnConfirm.mk src dst src_client dst_client src_conn dst_conn in
  res <- run_success cmd c ;;
  log INFO [Lit (lit "ConnOpen confirm submitted to "); Fmt dst;
            Lit (lit " and obtained connection id ");
            Fmt (TxConnConfirmRes.connection_id res)] ;;
  ret (TxConnConfirmRes.connection_id res).

(** The diagnostic of a connection id that differs from the expected one. *)
Definition mismatch (step : string) (expected got : ConnectionId) : list Frag :=
  [Lit (lit "Incorrect connection id returned from conn "); Lit (lit step);
   Lit (lit ": expected=("); Fmt expected; Lit (lit ")/got=("); Fmt got;
   Lit (lit ")")].

Definition connection_handshake (c : str) (side_a side_b : ChainId)
  (client_a client_b : ClientId) : M (ConnectionId * ConnectionId) :=
  a_conn_id <- conn_init c side_a side_b client_a client_b ;;
  split ;;
  b_conn_id <- conn_try c side_b side_a client_b client_a a_conn_id ;;
  split ;;
  ack_res <- conn_ack c side_a side_b client_a client_b b_conn_id a_conn_id ;;
  (if py_ne ack_res a_conn_id
   then log ERROR (mismatch "ack" a_conn_id ack_res)
   else ret tt) ;;
  split ;;
  confirm_res <- conn_confirm c side_b side_a client_b client_a a_conn_id b_conn_id ;;
  (if py_ne confirm_res b_conn_id
   then log ERROR (mismatch "confirm" b_conn_id confirm_res)
   else ret tt) ;;
  ret (a_conn_id, b_conn_id).

(** *** The whole run *)

Definition run (c : str) : M unit :=
  let IBC_0 := PyStr (lit "ibc-0") in
  let IBC_1 := PyStr (lit "ibc-1") in
  ibc0_client_id <- create_update_query_client c IBC_0 IBC_1 ;;
  ibc1_client_id <- create_update_query_client c IBC_1 IBC_0 ;;
  split ;;
  _ <- connection_handshake c IBC_1 IBC_0 ibc1_client_id ibc0_client_id ;;
  ret tt.

End Program.

Arguments ret {Agent X} x _.
Arguments raise {Agent X} e _.
Arguments bind {Agent X Y} m k _.
Arguments lift {Agent X} r _.
Arguments emit {Agent} ev _.
Arguments log {Agent} level message _.
Arguments split {Agent} _.

(** ** Reading a trace *)

Definition outcome {Agent X} (o : Result X * Agent * list Event) : Result X := fst (fst o).
Definition events {Agent X} (o : Result X * Agent * list Event) : list Event := snd o.

(** The commands issued, in order. *)
Fixpoint commands (t : list Event) : list AnyCmd :=
  match t with
  | [] => []
  | Spawned cmd _ _ :: t' => cmd :: commands t'
  | _ :: t' => commands t'
  end.

Inductive Step := CREATE | QUERY | UPDATE | INIT | TRY | ACK | CONFIRM.

Definition step_of (cmd : AnyCmd) : Step :=
  match cmd with
  | ACreateClient _ => CREATE
  | AUpdateClient _ => UPDATE
  | AQueryClientState _ => QUERY
  | AConnInit _ => INIT
  | AConnTry _ => TRY
  | AConnAck _ => ACK
  | AConnConfirm _ => CONFIRM
  end.

(** The commands and the delays of a trace, in order. *)
Inductive Beat := Issue (s : Step) | Delay.

Fixpoint beats (t : list Event) : list Beat :=
  match t with
  | [] => []
  | Spawned cmd _ _ :: t' => Issue (step_of cmd) :: beats t'
  | Slept _ :: t' => Delay :: beats t'
  | _ :: t' => beats t'
  end.

(** The beats of one client lifecycle, of the handshake, of a whole run. *)
Definition lifecycle_beats : list Beat :=
  [Issue CREATE; Delay; Issue QUERY; Delay; Issue UPDATE; Delay; Issue QUERY; Delay].

Definition handshake_beats : list Beat :=
  [Issue INIT; Delay; Issue TRY; Delay; Issue ACK; Delay; Issue CONFIRM].

Definition run_beats : list Beat :=
  lifecycle_beats ++ lifecycle_beats ++ [Delay] ++ handshake_beats.

(** Every command of the trace is followed, somewhere later, by a delay. *)
Definition every_command_followed_by_delay (t : list Event) : Prop :=
  forall pre cmd argv stdout post,
    t = pre ++ Spawned cmd argv stdout :: post -> exists ms, In (Slept ms) post.

(** ** [process] through a [Cmd] of any class *)

Inductive AnyRes : Type :=
| RCreateClient (r : TxCreateClientRes.t)
| RUpdateClient (r : TxUpdateClientRes.t)
| RQueryClientState (r : QueryClientStateRes.t)
| RConnInit (r : TxConnInitRes.t)
| RConnTry (r : TxConnTryRes.t)
| RConnAck (r : TxConnAckRes.t)
| RConnConfirm (r : TxConnConfirmRes.t).

(** [cmd.process(result)], dispatched on the class of [cmd]. *)
Definition process_any (cmd : AnyCmd) (payload : Any) : Result AnyRes :=
  match cmd with
  | ACreateClient c => rbind (process c payload) (fun r => Ok (RCreateClient r))
  | AUpdateClient c => rbind (process c payload) (fun r => Ok (RUpdateClient r))
  | AQueryClientState c => rbind (process c payload) (fun r => Ok (RQueryClientState r))
  | AConnInit c => rbind (process c payload) (fun r => Ok (RConnInit r))
  | AConnTry c => rbind (process c payload) (fun r => Ok (RConnTry r))
  | AConnAck c => rbind (process c payload) (fun r => Ok (RConnAck r))
  | AConnConfirm c => rbind (process c payload) (fun r => Ok (RConnConfirm r))
  end.

(** ** The reply protocol, as the specification tabulates it *)

(** The tag under which an operation's outcome is found; a query has none. *)
Definition tag_of (cmd : AnyCmd) : option string :=
  match cmd with
  | ACreateClient _ => Some "CreateClient"
  | AUpdateClient _ => Some "UpdateClient"
  | AQueryClientState _ => None
  | AConnInit _ => Some "OpenInitConnection"
  | AConnTry _ => Some "OpenTryConnection"
  | AConnAck _ => Some "OpenAckConnection"
  | AConnConfirm _ => Some "OpenConfirmConnection"
  end%string.

(** A height object holding both of its keys. *)
Definition read_height (v : option Any) : option Height :=
  match v with
  | Some (PyDict h) =>
      match dict_get h (lit "revision_height"), dict_get h (lit "revision_number") with
      | Some rh, Some rn => Some (mkHeight rh rn)
      | _, _ => None
      end
  | _ => None
  end.

(** The result fields of an operation, read from the object that holds them. *)
Definition read_fields (cmd : AnyCmd) (d : list (str * Any)) : option AnyRes :=
  match cmd with
  | ACreateClient _ =>
      option_map (fun v => RCreateClient (TxCreateClientRes.mk v)) (dict_get d (lit "client_id"))
  | AUpdateClient _ =>
      option_map (fun h => RUpdateClient (TxUpdateClientRes.mk h))
                 (read_height (dict_get d (lit "consensus_height")))
  | AQueryClientState _ =>
      option_map (fun h => RQueryClientState (QueryClientStateRes.mk h))
                 (read_height (dict_get d (lit "latest_height")))
  | AConnInit _ =>
      option_map (fun v => RConnInit (TxConnInitRes.mk v)) (dict_get d (lit "connection_id"))
  | AConnTry _ =>
      option_map (fun v => RConnTry (TxConnTryRes.mk v)) (dict_get d (lit "connection_id"))
  | AConnAck _ =>
      option_map (fun v => RConnAck (TxConnAckRes.mk v)) (dict_get d (lit "connection_id"))
  | AConnConfirm _ =>
      option_map (fun v => RConnConfirm (TxConnConfirmRes.mk v)) (dict_get d (lit "connection_id"))
  end.

(** The object that holds the result fields: the payload is an array
    whose first element is an object; that object itself for a query,
    the object under the operation's tag otherwise. *)
Definition holder (cmd : AnyCmd) (payload : Any) : option (list (str * Any)) :=
  match payload with
  | PyList (PyDict first :: _) =>
      match tag_of cmd with
      | None => Some first
      | Some tag =>
          match dict_get first (lit tag) with
          | Some (PyDict d) => Some d
          | _ => None
          end
      end
  | _ => None
  end.

(** Key presence: index 0, the tag and every field key are there.  The
    typed result then has the field values as they stand. *)
Definition expected (cmd : AnyCmd) (payload : Any) : option AnyRes :=
  match holder cmd payload with
  | Some d => read_fields cmd d
  | None => None
  end.


(** The key of the first result field of an operation. *)
Definition first_field (cmd : AnyCmd) : string :=
  match cmd with
  | ACreateClient _ => "client_id"
  | AUpdateClient _ => "consensus_height"
  | AQueryClientState _ => "latest_height"
  | _ => "connection_id"
  end%string.


Definition is_str (v : Any) : bool :=
  match v with PyStr _ => true | _ => false end.

Section Replies.

Variable loads : str -> option Any.

(** The reply a command's output decodes to. *)
Definition reply_of (stdout : str) : option Any :=
  loads (last_line stdout).

(** The reply is an object whose status field is the string "success". *)
Definition status_success (stdout : str) : bool :=
  match reply_of stdout with
  | Some (PyDict reply) =>
      match dict_get reply (lit "status") with
      | Some (PyStr s) => str_eqb s (lit "success")
      | _ => false
      end
  | _ => false
  end.



(** The reply is an object whose status, read as [CmdResult.success]
    reads it, is not "success". *)
Definition failed_with (stdout : str) (status payload : Any) : Prop :=
  exists reply,
    reply_of stdout = Some (PyDict reply) /\
    status = get_or reply (lit "status") (PyStr (lit "unknown")) /\
    payload = get_or reply (lit "result") (PyDict []) /\
    status <> PyStr (lit "success").

(** The line the specification describes: the last one that is not empty. *)
Definition last_nonempty_line (stdout : str) : str :=
  last (filter (fun line => match line with [] => false | _ => true end)
               (splitlines stdout)) [].

End Replies.

(** ** Calling [success] again *)

(** The results of [n] successive calls of [success] on one envelope;
    the method assigns to nothing, so the envelope stays as it is. *)
Fixpoint repeated_calls {C T} `{Cmd C T} (n : nat) (self : CmdResult C) : list (Result T) :=
  match n with
  | O => []
  | S n' => success self :: repeated_calls n' self
  end.

(** A field that is absent, or present with a false truth value. *)
Definition falsy_field (reply : list (str * Any)) (key : str) : Prop :=
  match dict_get reply key with
  | None => True
  | Some v => truthy v = false
  end.

(** ** Shapes of a trace *)

(** The pause between steps that [split] makes. *)
Definition pause : list Event :=
  [Slept 500; Printed (lit (String "010"%char EmptyString))].

(** What one [Cmd.run] leaves in the trace. *)
Definition exchange (cmd : AnyCmd) (argv : list str) (stdout : str) : list Event :=
  [Logged DEBUG [Lit (str_join (lit " ") argv)];
   Spawned cmd argv stdout;
   Logged DEBUG [Lit (last_line stdout)]].

Definition agent_after {Agent X} (o : Result X * Agent * list Event) : Agent := snd (fst o).

(** The result of a step function from that of its [cmd.run(c).success()]:
    on success it logs a line and returns a part of the typed result. *)
Definition finish {Agent T X} (f : T -> X) (message : T -> list Frag)
  (o : Result T * Agent * list Event) : Result X * Agent * list Event :=
  match o with
  | (Ok x, a, t) => (Ok (f x), a, t ++ [Logged INFO (message x)])
  | (Err e, a, t) => (Err e, a, t)
  end.

(** The beats of an outcome follow a pattern: all of it when the
    computation returns, a beginning of it when it raises. *)
Definition follows {Agent X} (pattern : list Beat) (o : Result X * Agent * list Event) : Prop :=
  match outcome o with
  | Ok _ => beats (events o) = pattern
  | Err _ => exists rest, pattern = beats (events o) ++ rest
  end.

(** The argument vector of a command whose operands are all strings. *)
Definition argv_of (config name : str) (operands : list str) : list str :=
  str_split 32 (lit "cargo run --bin relayer -- -c " ++ config)
    ++ str_split 32 name ++ operands.

(** What [cmd.run(c).success()] makes of the output of the child. *)
Definition answer (loads : str -> option Any) {C T} `{Cmd C T} (self : C) (stdout : str)
  : Result T :=
  rbind (json_loads loads (last_line stdout))
        (fun reply => success (mkCmdResult self reply)).

(** A failed reply ends the computation: the command that received it
    is the last one issued, and what is raised is ExpectedSuccess with
    that command, the status and the payload. *)
Definition stops_at_failure (loads : str -> option Any) {Agent X}
  (o : Result X * Agent * list Event) : Prop :=
  forall pre cmd argv stdout post status payload,
    events o = pre ++ Spawned cmd argv stdout :: post ->
    failed_with loads stdout status payload ->
    outcome o = Err (ExpectedSuccess cmd status payload) /\ commands post = [].



(** ** A scripted relayer, to run the program on concrete replies *)

(** The relayer prints the next output of its script, whatever it is
    asked; a script that has run out prints nothing. *)
Definition scripted (script : list str) (argv : list str) : list str * str :=
  match script with
  | [] => ([], [])
  | stdout :: rest => (rest, stdout)
  end.

(** The compact JSON text of a value built from null, booleans,
    integers, strings of plain characters, arrays and objects. *)
Fixpoint render (v : Any) : str :=
  match v with
  | PyNone => lit "null"
  | PyBool true => lit "true"
  | PyBool false => lit "false"
  | PyInt n => str_of_int n
  | PyFloat _ => lit "NaN"
  | PyStr s => [34%N] ++ s ++ [34%N]
  | PyList l =>
      lit "[" ++
      (fix items (l : list Any) : str :=
         match l with
         | [] => []
         | x :: rest =>
             match rest with
             | [] => render x
             | _ => render x ++ lit "," ++ items rest
             end
         end) l ++ lit "]"
  | PyDict d =>
      lit "{" ++
      (fix entries (d : list (str * Any)) : str :=
         match d with
         | [] => []
         | (k, x) :: rest =>
             match rest with
             | [] => [34%N] ++ k ++ [34%N] ++ lit ":" ++ render x
             | _ => [34%N] ++ k ++ [34%N] ++ lit ":" ++ render x ++ lit "," ++ entries rest
             end
         end) d ++ lit "}"
  end.

Definition obj (entries : list (string * Any)) : Any :=
  PyDict (map (fun kv => (lit (fst kv), snd kv)) entries).

Definition text (s : string) : Any := PyStr (lit s).

Definition succeeded (payload : Any) : Any :=
  obj [("status", text "success"); ("result", payload)]%string.

Definition tagged (tag : string) (fields : list (string * Any)) : Any :=
  PyList [obj [(tag, obj fields)]].

Definition height_obj (h n : Z) : Any :=
  obj [("revision_height", PyInt h); ("revision_number", PyInt n)]%string.

Definition created (client_id : string) : Any :=
  succeeded (tagged "CreateClient" [("client_id", text client_id)]%string).

Definition updated (h : Z) : Any :=
  succeeded (tagged "UpdateClient" [("consensus_height", height_obj h 0)]%string).

Definition queried (h : Z) : Any :=
  succeeded (PyList [obj [("latest_height", height_obj h 0)]%string]).

Definition connected (tag connection_id : string) : Any :=
  succeeded (tagged tag [("connection_id", text connection_id)]%string).

(** The reply of scenario 3. *)
Definition boom : Any :=
  obj [("status", text "error"); ("result", obj [("msg", text "boom")])]%string.

(** A reply whose status is "success" and whose outcome lacks its field. *)
Definition hollow : Any :=
  succeeded (tagged "CreateClient" []).

Definition known_replies : list Any :=
  [created "07-tendermint-0"; created "07-tendermint-1";
   queried 10; updated 11; queried 11;
   connected "OpenInitConnection" "connection-0";
   connected "OpenTryConnection" "connection-1";
   connected "OpenAckConnection" "connection-0";
   connected "OpenAckConnection" "connection-7";
   connected "OpenConfirmConnection" "connection-1";
   boom; hollow].

(** A decoder for the texts of the replies above: it gives each the
    value [json.loads] gives it, and refuses every other text, the empty
    one among them. *)
Definition table_loads (line : str) : option Any :=
  find (fun v => str_eqb (render v) line) known_replies.

(** What a relayer prints for a reply: build noise, then the reply on a
    line of its own. *)
Definition printed (reply : Any) : str :=
  lit "    Finished dev [unoptimized + debuginfo]" ++ [10%N] ++ render reply ++ [10%N].

Definition lifecycle_script (client_id : string) : list str :=
  [printed (created client_id); printed (queried 10);
   printed (updated 11); printed (queried 11)].

Definition handshake_script (ack_id : string) : list str :=
  [printed (connected "OpenInitConnection" "connection-0");
   printed (connected "OpenTryConnection" "connection-1");
   printed (connected "OpenAckConnection" ack_id);
   printed (connected "OpenConfirmConnection" "connection-1")].

Definition good_script : list str :=
  lifecycle_script "07-tendermint-0" ++ lifecycle_script "07-tendermint-1" ++
  handshake_script "connection-0".

Definition config : str := lit "relayer.toml".

(** The two chains of a run, and the clients and connections the
    scripts speak of. *)
Definition ibc0 : ChainId := text "ibc-0".
Definition ibc1 : ChainId := text "ibc-1".
Definition create01 : TxCreateClient.t := TxCreateClient.mk ibc0 ibc1.


(** A run whose second CREATE is refused. *)
Definition refused_script : list str :=
  lifecycle_script "07-tendermint-0" ++ [printed boom].

(** An output that ends with an empty line after its JSON line. *)
Definition padded (reply : Any) : str := render reply ++ [10%N; 10%N].

(** The runs the scripts give. *)
Definition good_run : Result unit * list str * list Event :=
  run table_loads (list str) scripted config good_script.


Definition boom_run : Result unit * list str * list Event :=
  run table_loads (list str) scripted config [printed boom].

Definition refused_run : Result unit * list str * list Event :=
  run table_loads (list str) scripted config refused_script.

Definition good_lifecycle : Result ClientId * list str * list Event :=
  create_update_query_client table_loads (list str) scripted config ibc0 ibc1
    (lifecycle_script "07-tendermint-0").

(** A handshake whose ACK answers with another connection id. *)
Definition mismatched_handshake : Result (ConnectionId * ConnectionId) * list str * list Event :=
  connection_handshake table_loads (list str) scripted config ibc1 ibc0
    (text "07-tendermint-1") (text "07-tendermint-0") (handshake_script "connection-7").

(** Replies and payloads that do not follow the protocol. *)
Definition boom_payload : Any := obj [("msg", text "boom")]%string.

Definition blank_status_reply : Any :=
  obj [("status", text ""); ("result", boom_payload)]%string.

Definition update0 : AnyCmd :=
  AUpdateClient (TxUpdateClient.mk ibc0 ibc1 (text "07-tendermint-0")).

(** A height whose fields are not integers. *)
Definition odd_height : Any :=
  obj [("revision_height", text "eleven"); ("revision_number", PyNone)]%string.


(** ** Commands of any class, further *)

(** [cmd.name] and [cmd.args()], dispatched on the class of [cmd]. *)
Definition any_name (cmd : AnyCmd) : str :=
  match cmd with
  | ACreateClient c => name c
  | AUpdateClient c => name c
  | AQueryClientState c => name c
  | AConnInit c => name c
  | AConnTry c => name c
  | AConnAck c => name c
  | AConnConfirm c => name c
  end.

Definition any_args (cmd : AnyCmd) : list Any :=
  match cmd with
  | ACreateClient c => args c
  | AUpdateClient c => args c
  | AQueryClientState c => args c
  | AConnInit c => args c
  | AConnTry c => args c
  | AConnAck c => args c
  | AConnConfirm c => args c
  end.

(** [CmdResult(cmd, reply).success()], dispatched on the class of [cmd]. *)
Definition success_any (cmd : AnyCmd) (reply : Any) : Result AnyRes :=
  match cmd with
  | ACreateClient c => rbind (success (mkCmdResult c reply)) (fun r => Ok (RCreateClient r))
  | AUpdateClient c => rbind (success (mkCmdResult c reply)) (fun r => Ok (RUpdateClient r))
  | AQueryClientState c =>
      rbind (success (mkCmdResult c reply)) (fun r => Ok (RQueryClientState r))
  | AConnInit c => rbind (success (mkCmdResult c reply)) (fun r => Ok (RConnInit r))
  | AConnTry c => rbind (success (mkCmdResult c reply)) (fun r => Ok (RConnTry r))
  | AConnAck c => rbind (success (mkCmdResult c reply)) (fun r => Ok (RConnAck r))
  | AConnConfirm c => rbind (success (mkCmdResult c reply)) (fun r => Ok (RConnConfirm r))
  end.

(** What [cmd.run(c).success()] makes of the output of the child, for a
    command of any class. *)
Definition answer_any (loads : str -> option Any) (cmd : AnyCmd) (stdout : str)
  : Result AnyRes :=
  rbind (json_loads loads (last_line stdout)) (success_any cmd).

(** The tokens every command line begins with, before the configuration. *)
Definition launcher : list str :=
  [lit "cargo"; lit "run"; lit "--bin"; lit "relayer"; lit "--"; lit "-c"].

(** The text of the command line up to the configuration. *)
Definition launcher_text : str := lit "cargo run --bin relayer -- -c ".

(** A text without line boundaries. *)
Definition unbroken (line : str) : bool :=
  forallb (fun ch => negb (is_linebreak ch)) line.

(** The key [process] looks up in the first element of the payload. *)
Definition top_key (cmd : AnyCmd) : string :=
  match tag_of cmd with
  | Some tag => tag
  | None => first_field cmd
  end.

(** An error of any kind ends the computation: the command whose answer
    raises is the last one issued, and the computation raises that error. *)
Definition halts_on_error (loads : str -> option Any) {Agent X}
  (o : Result X * Agent * list Event) : Prop :=
  forall pre cmd argv stdout post e,
    events o = pre ++ Spawned cmd argv stdout :: post ->
    answer_any loads cmd stdout = Err e ->
    outcome o = Err e /\ commands post = [].

(** The spawn of a command for configuration [c]: the launcher, the
    tokens of the configuration, those of the operation name, and the
    arguments of the descriptor, all of them strings. *)
Definition spawned_for (c : str) (ev : Event) : Prop :=
  match ev with
  | Spawned cmd argv _ =>
      exists operands,
        as_strs (any_args cmd) = Some operands
        /\ argv = launcher ++ str_split 32 c ++ str_split 32 (any_name cmd) ++ operands
  | _ => True
  end.

(** An event that is no error-level log, unless it reports a connection
    id that differs from the expected one. *)
Definition reports_mismatch_only (ev : Event) : Prop :=
  match ev with
  | Logged ERROR message =>
      exists step expected got,
        (step = "ack" \/ step = "confirm")%string
        /\ py_ne got expected = true
        /\ message = mismatch step expected got
  | _ => True
  end.

(** An event that is no error-level log. *)
Definition no_error_log (ev : Event) : Prop :=
  match ev with
  | Logged ERROR _ => False
  | _ => True
  end.

(** The steps of a whole run, in order. *)
Definition run_steps : list Step :=
  [CREATE; QUERY; UPDATE; QUERY; CREATE; QUERY; UPDATE; QUERY; INIT; TRY; ACK; CONFIRM].

(** The steps among the beats. *)
Fixpoint issued (bs : list Beat) : list Step :=
  match bs with
  | [] => []
  | Issue s :: bs' => s :: issued bs'
  | Delay :: bs' => issued bs'
  end.

(** Further replies that do not follow the protocol: a client id that is
    a number, and a reply that is an array. *)
Definition numbered : Any :=
  succeeded (tagged "CreateClient" [("client_id", PyInt 7)]%string).

Definition bare_array : Any := PyList [text "done"].

(** A decoder for the texts of a given list of replies. *)
Definition decoder (replies : list Any) (line : str) : option Any :=
  find (fun v => str_eqb (render v) line) replies.

Definition wider_loads : str -> option Any :=
  decoder (known_replies ++ [numbered; bare_array]).


(** The reply to a spawned command had status "success" and a result
    holding index 0, the operation's tag and its field keys. *)
Definition answered (loads : str -> option Any) (ev : Event) : Prop :=
  match ev with
  | Spawned cmd _ stdout =>
      status_success loads stdout = true
      /\ exists reply payload r,
           reply_of loads stdout = Some (PyDict reply)
           /\ dict_get reply (lit "result") = Some payload
           /\ expected cmd payload = Some r
  | _ => True
  end.


(** A configuration path with a space in it. *)
Definition spaced_config : str := lit "my relayer.toml".

(** An update whose client id is a number. *)
Definition update7 : TxUpdateClient.t := TxUpdateClient.mk ibc0 ibc1 (PyInt 7).

(** A lifecycle whose CREATE answers with a number for the client id. *)
Definition numbered_script : list str :=
  [printed numbered; printed (queried 10); printed (updated 11); printed (queried 11)].

Definition numbered_lifecycle : Result ClientId * list str * list Event :=
  create_update_query_client wider_loads (list str) scripted config ibc0 ibc1
    numbered_script.

(** A run whose first reply is an array. *)
Definition array_run : Result unit * list str * list Event :=
  run wider_loads (list str) scripted config [printed bare_array].

(** A handshake whose replies all agree. *)
Definition good_handshake : Result (ConnectionId * ConnectionId) * list str * list Event :=
  connection_handshake table_loads (list str) scripted config ibc1 ibc0
    (text "07-tendermint-1") (text "07-tendermint-0") (handshake_script "connection-0").



(** * Properties *)

(** ** Strings and values *)

Lemma str_eqb_eq (a b : str) : str_eqb a b = true <-> a = b.
Proof.
  revert b; induction a as [|x a IH]; intros [|y b]; simpl; split; intro E;
    try reflexivity; try discriminate.
  - apply andb_true_iff in E as [E1 E2]. apply N.eqb_eq in E1. apply IH in E2.
    now subst.
  - injection E as -> ->. rewrite N.eqb_refl. now apply IH.
Qed.

Lemma str_eqb_refl (a : str) : str_eqb a a = true.
Proof. now apply str_eqb_eq. Qed.

Lemma py_eq_str (v : Any) (s : str) : py_eq v (PyStr s) = true <-> v = PyStr s.
Proof.
  destruct v; simpl; split; intro E; try discriminate; try reflexivity.
  - apply str_eqb_eq in E. now subst.
  - injection E as ->. apply str_eqb_refl.
Qed.

Lemma py_eq_str_false (v : Any) (s : str) : v <> PyStr s -> py_eq v (PyStr s) = false.
Proof.
  intro N. destruct (py_eq v (PyStr s)) eqn:E; [|reflexivity].
  apply py_eq_str in E. contradiction.
Qed.

Lemma lit_nonempty (x : string) : x <> EmptyString -> lit x <> [].
Proof. destruct x; [congruence | discriminate]. Qed.

Lemma str_of_int_nonempty (n : Z) : str_of_int n <> [].
Proof.
  unfold str_of_int. apply lit_nonempty.
  destruct (Z.to_int n) as [d|d]; [destruct d|]; discriminate.
Qed.

Lemma as_strs_map (l : list str) : as_strs (map PyStr l) = Some l.
Proof. induction l as [|s l IH]; simpl; [|rewrite IH]; reflexivity. Qed.

Lemma as_strs_app (l1 l2 : list Any) :
  as_strs (l1 ++ l2) =
  match as_strs l1, as_strs l2 with
  | Some a, Some b => Some (a ++ b)
  | _, _ => None
  end.
Proof.
  induction l1 as [|v l1 IH]; simpl.
  - now destruct (as_strs l2).
  - destruct v; try reflexivity. rewrite IH.
    destruct (as_strs l1), (as_strs l2); reflexivity.
Qed.

(** ** QueryClientState.args *)

(** C7.  QueryClientState.args emits ['--height', str(height)] only when
    the height is not None and '--proof' only when proof is true, in
    front of [chain_id, client_id]; none of the flag tokens is empty, and
    with no height and no proof the list is exactly [chain_id, client_id]. *)
Theorem QueryClientState_args_flags (q : QueryClientState.t) :
  let height_flag :=
    match QueryClientState.height q with
    | Some h => [PyStr (lit "--height"); PyStr (str_of_int h)]
    | None => []
    end in
  let proof_flag := if QueryClientState.proof q then [PyStr (lit "--proof")] else [] in
  args q = height_flag ++ proof_flag
             ++ [QueryClientState.chain_id q; QueryClientState.client_id q]
  /\ Forall (fun token => token <> PyStr []) (height_flag ++ proof_flag)
  /\ args (QueryClientState.mk (QueryClientState.chain_id q)
                               (QueryClientState.client_id q) None false)
     = [QueryClientState.chain_id q; QueryClientState.client_id q].
Proof.
  destruct q as [chain client [h|] [|]]; simpl; repeat split;
    repeat constructor; try discriminate.
  all: intro E; injection E as E; now apply str_of_int_nonempty in E.
Qed.

(** ** CmdResult.success *)

Lemma get_or_truthy reply key default v :
  dict_get reply key = Some v -> truthy v = true -> get_or reply key default = v.
Proof. unfold get_or, py_or. now intros -> ->. Qed.

Lemma get_or_falsy reply key default :
  falsy_field reply key -> get_or reply key default = default.
Proof.
  unfold falsy_field, get_or, py_or. destruct (dict_get reply key); [now intros ->|reflexivity].
Qed.

Lemma success_eq {C T} `{Cmd C T} (cmd : C) (reply : list (str * Any)) :
  success (mkCmdResult cmd (PyDict reply)) =
  if py_eq (get_or reply (lit "status") (PyStr (lit "unknown"))) (PyStr (lit "success"))
  then process cmd (get_or reply (lit "result") (PyDict []))
  else Err (ExpectedSuccess (upcast cmd)
              (get_or reply (lit "status") (PyStr (lit "unknown")))
              (get_or reply (lit "result") (PyDict []))).
Proof. reflexivity. Qed.

Lemma status_not_success reply :
  dict_get reply (lit "status") <> Some (PyStr (lit "success")) ->
  get_or reply (lit "status") (PyStr (lit "unknown")) <> PyStr (lit "success").
Proof.
  intros N. unfold get_or, py_or.
  destruct (dict_get reply (lit "status")) as [v|] eqn:E.
  - destruct (truthy v); [congruence | discriminate].
  - discriminate.
Qed.

(** C2, as the code has it.  On a reply object, success returns the
    descriptor's process applied to the result read with its default (the
    result field itself when it is present and true, {} otherwise) when
    the status field is "success"; for any other status it raises
    ExpectedSuccess carrying the status read with its default (the status
    field itself when present and true, "unknown" otherwise) and the
    result read likewise; every further call gives the same outcome. *)
Theorem success_contract {C T} `{Cmd C T} (cmd : C) (reply : list (str * Any)) :
  let self := mkCmdResult cmd (PyDict reply) in
  let status := get_or reply (lit "status") (PyStr (lit "unknown")) in
  let payload := get_or reply (lit "result") (PyDict []) in
  (dict_get reply (lit "status") = Some (PyStr (lit "success")) ->
   success self = process cmd payload)
  /\ (dict_get reply (lit "status") <> Some (PyStr (lit "success")) ->
      success self = Err (ExpectedSuccess (upcast cmd) status payload))
  /\ (forall v, dict_get reply (lit "status") = Some v -> truthy v = true -> status = v)
  /\ (forall v, dict_get reply (lit "result") = Some v -> truthy v = true -> payload = v)
  /\ (forall n, Forall (fun r => r = success self) (repeated_calls n self)).
Proof.
  intros self status payload. repeat split.
  - intro E. unfold self. rewrite success_eq.
    rewrite (get_or_truthy _ _ _ _ E eq_refl).
    now rewrite (proj2 (py_eq_str _ _) eq_refl).
  - intro N. unfold self. rewrite success_eq.
    now rewrite (py_eq_str_false _ _ (status_not_success _ N)).
  - intros v E Tv. now apply get_or_truthy.
  - intros v E Tv. now apply get_or_truthy.
  - induction n; simpl; constructor; auto.
Qed.

(** Against C2 as the specification words it: on a blank status the
    exception carries "unknown", not the status string of the reply. *)
Lemma success_blank_status_not_carried :
  success (mkCmdResult create01 blank_status_reply)
    <> Err (ExpectedSuccess (upcast create01) (text "") boom_payload)
  /\ success (mkCmdResult create01 blank_status_reply)
     = Err (ExpectedSuccess (upcast create01) (text "unknown") boom_payload).
Proof. split; [discriminate | reflexivity]. Qed.

Lemma success_contract_witness :
  success (mkCmdResult create01 (created "07-tendermint-0"))
    = Ok (TxCreateClientRes.mk (text "07-tendermint-0"))
  /\ success (mkCmdResult create01 boom)
     = Err (ExpectedSuccess (upcast create01) (text "error") boom_payload).
Proof.
  destruct (success_contract create01
              [(lit "status", text "success");
               (lit "result", tagged "CreateClient" [("client_id", text "07-tendermint-0")]%string)])
    as (ok & _).
  destruct (success_contract create01
              [(lit "status", text "error"); (lit "result", boom_payload)])
    as (_ & ko & _).
  split.
  - exact (ok eq_refl).
  - apply ko. discriminate.
Defined.

(** C9.  success normalises every false status and result: a status
    field that is absent or has a false truth value (None, the empty
    string, ...) is carried by ExpectedSuccess as "unknown", and a result
    field that is absent or false (None, the empty string, the empty
    list, ...) is carried as the empty dict. *)
Theorem success_normalises_falsy {C T} `{Cmd C T} (cmd : C) (reply : list (str * Any)) :
  let self := mkCmdResult cmd (PyDict reply) in
  (falsy_field reply (lit "status") ->
   success self = Err (ExpectedSuccess (upcast cmd) (PyStr (lit "unknown"))
                         (get_or reply (lit "result") (PyDict []))))
  /\ (falsy_field reply (lit "result") ->
      dict_get reply (lit "status") <> Some (PyStr (lit "success")) ->
      success self = Err (ExpectedSuccess (upcast cmd)
                            (get_or reply (lit "status") (PyStr (lit "unknown")))
                            (PyDict [])))
  /\ (falsy_field reply (lit "result") ->
      dict_get reply (lit "status") = Some (PyStr (lit "success")) ->
      success self = process cmd (PyDict []))
  /\ Forall (fun v => truthy v = false)
       [PyNone; PyStr []; PyList []; PyDict []; PyBool false; PyInt 0].
Proof.
  intro self. unfold self. repeat split.
  - intro F. rewrite success_eq. now rewrite (get_or_falsy _ _ _ F).
  - intros F N. rewrite success_eq.
    rewrite (py_eq_str_false _ _ (status_not_success _ N)).
    now rewrite (get_or_falsy _ _ _ F).
  - intros F E. rewrite success_eq.
    rewrite (get_or_truthy _ _ _ _ E eq_refl), (get_or_falsy _ _ _ F).
    now rewrite (proj2 (py_eq_str _ _) eq_refl).
  - repeat constructor.
Qed.

Lemma success_normalises_falsy_witness :
  success (mkCmdResult create01 (obj [("status", text ""); ("result", PyList [])]%string))
    = Err (ExpectedSuccess (upcast create01) (text "unknown") (PyDict []))
  /\ success (mkCmdResult create01 (obj [("status", PyNone); ("result", text "")]%string))
     = Err (ExpectedSuccess (upcast create01) (text "unknown") (PyDict []))
  /\ success (mkCmdResult create01 (obj [("status", text "error")]%string))
     = Err (ExpectedSuccess (upcast create01) (text "error") (PyDict [])).
Proof.
  split; [|split].
  - destruct (success_normalises_falsy create01
                [(lit "status", text ""); (lit "result", PyList [])]) as (blank & _).
    apply blank. reflexivity.
  - destruct (success_normalises_falsy create01
                [(lit "status", PyNone); (lit "result", text "")]) as (none & _).
    apply none. reflexivity.
  - destruct (success_normalises_falsy create01 [(lit "status", text "error")])
      as (_ & absent & _).
    apply absent; [exact I | discriminate].
Defined.

(** ** process and from_dict *)

Arguments lit : simpl never.

Ltac break_match :=
  match goal with
  | |- context [match ?x with _ => _ end] => destruct x eqn:?
  | H : context [match ?x with _ => _ end] |- _ => destruct x eqn:?
  end.

Ltac tidy :=
  repeat match goal with
         | H : Ok _ = Ok _ |- _ => injection H as H
         | H : Err _ = Err _ |- _ => injection H as H
         | H : Some _ = Some _ |- _ => injection H as H
         end.

Ltac walk := simpl in *; repeat (break_match; simpl in *; tidy; subst; try congruence).

Ltac expose :=
  simpl;
  cbv beta delta [expected holder from_tagged from_dict
    from_dict_TxCreateClientRes from_dict_TxUpdateClientRes from_dict_QueryClientStateRes
    from_dict_TxConnInitRes from_dict_TxConnTryRes from_dict_TxConnAckRes
    from_dict_TxConnConfirmRes from_dict_Height from_dict_leaf rbind
    getitem_int getitem_str read_fields read_height tag_of first_field option_map].


(** [process] returns exactly when the keys are present, and then it
    returns the field values as they stand. *)
Lemma process_any_expected (cmd : AnyCmd) (payload : Any) (r : AnyRes) :
  process_any cmd payload = Ok r <-> expected cmd payload = Some r.
Proof. destruct cmd; expose; walk; split; intro; walk; congruence. Qed.








(** ** Lines of the output *)

Lemma slice_last_join (lines : list str) :
  str_join [] (slice_last lines) = last lines [].
Proof.
  unfold slice_last. induction lines as [|x [|y rest] IH]; try reflexivity.
  replace (length (x :: y :: rest) - 1) with (S (length (y :: rest) - 1))
    by (simpl; lia).
  exact IH.
Qed.

Lemma last_line_last (stdout : str) : last_line stdout = last (splitlines stdout) [].
Proof. apply slice_last_join. Qed.

Lemma splitlines_nil (s : str) : splitlines s = [] -> s = [].
Proof.
  destruct s as [|ch s]; [reflexivity|]. simpl.
  destruct (is_linebreak ch).
  - destruct s as [|ch2 s]; [discriminate|].
    destruct (N.eqb ch 13 && N.eqb ch2 10); discriminate.
  - destruct (splitlines s); discriminate.
Qed.

(** A line feed ends a line wherever it stands. *)
Lemma splitlines_line_feed (before after : str) :
  splitlines (before ++ 10%N :: after) = splitlines (before ++ [10%N]) ++ splitlines after.
Proof.
  remember (length before) as n eqn:L. revert before L.
  induction n as [n IH] using lt_wf_ind. intros [|ch before] L; [now destruct after|].
  simpl. destruct (is_linebreak ch) eqn:B.
  - destruct before as [|ch2 before]; simpl.
    + destruct (N.eqb ch 13); simpl; [reflexivity | now destruct after].
    + destruct (N.eqb ch 13 && N.eqb ch2 10); cbn [app]; f_equal.
      * apply (IH (length before)); [subst; simpl; lia | reflexivity].
      * apply (IH (length (ch2 :: before)) ltac:(subst; simpl; lia) (ch2 :: before) eq_refl).
  - rewrite (IH (length before) ltac:(subst; simpl; lia) before eq_refl).
    destruct (splitlines (before ++ [10%N])) eqn:E; [|reflexivity].
    apply splitlines_nil in E. now destruct before.
Qed.

(** A text without line boundaries, closed by a line feed, is one line. *)
Lemma splitlines_one_line (line : str) :
  forallb (fun ch => negb (is_linebreak ch)) line = true ->
  splitlines (line ++ [10%N]) = [line].
Proof.
  induction line as [|ch line IH]; [reflexivity|].
  simpl. intro E. apply andb_true_iff in E as [B E].
  apply negb_true_iff in B. rewrite B, (IH E). reflexivity.
Qed.

Lemma last_line_after_noise (noise line : str) :
  forallb (fun ch => negb (is_linebreak ch)) line = true ->
  last_line (noise ++ 10%N :: line ++ [10%N]) = line.
Proof.
  intro E. rewrite last_line_last, splitlines_line_feed, (splitlines_one_line _ E).
  apply last_last.
Qed.

Lemma last_line_alone (line : str) :
  forallb (fun ch => negb (is_linebreak ch)) line = true ->
  last_line (line ++ [10%N]) = line.
Proof. intro E. now rewrite last_line_last, (splitlines_one_line _ E). Qed.

Lemma last_line_blank (body : str) : last_line (body ++ [10%N; 10%N]) = [].
Proof.
  rewrite last_line_last, splitlines_line_feed. apply last_last.
Qed.

(** ** Running commands *)

Lemma commands_app (t1 t2 : list Event) : commands (t1 ++ t2) = commands t1 ++ commands t2.
Proof.
  induction t1 as [|ev t1 IH]; [reflexivity|].
  destruct ev; simpl; now rewrite IH.
Qed.

Lemma beats_app (t1 t2 : list Event) : beats (t1 ++ t2) = beats t1 ++ beats t2.
Proof.
  induction t1 as [|ev t1 IH]; [reflexivity|].
  destruct ev; simpl; now rewrite IH.
Qed.

Lemma full_cmd_strs {C T} `{Cmd C T} (self : C) (c : str) :
  as_strs (full_cmd self c) =
  match as_strs (args self) with
  | Some operands => Some (argv_of c (name self) operands)
  | None => None
  end.
Proof.
  unfold full_cmd, argv_of. rewrite !as_strs_app, !as_strs_map.
  destruct (as_strs (args self)); [now rewrite app_assoc | reflexivity].
Qed.

Section Runs.

Variable loads : str -> option Any.
Variable Agent : Type.
Variable relayer : Agent -> list str -> Agent * str.

Local Abbreviation exec := (run_success loads Agent relayer).

Lemma bind_ok {X Y} (m : M Agent X) (k : X -> M Agent Y) (a : Agent) (x : X) :
  outcome (m a) = Ok x ->
  bind m k a = (outcome (k x (agent_after (m a))),
                agent_after (k x (agent_after (m a))),
                events (m a) ++ events (k x (agent_after (m a)))).
Proof.
  unfold bind, outcome, agent_after, events.
  destruct (m a) as [[r a1] t1]; simpl. intros ->.
  now destruct (k x a1) as [[r2 a2] t2].
Qed.

Lemma bind_err {X Y} (m : M Agent X) (k : X -> M Agent Y) (a : Agent) (e : Exception) :
  outcome (m a) = Err e ->
  bind m k a = (Err e, agent_after (m a), events (m a)).
Proof.
  unfold bind, outcome, agent_after, events.
  destruct (m a) as [[r a1] t1]; simpl. now intros ->.
Qed.

(** A computation that returns has had every part of it return. *)
Lemma bind_returns {X Y} (m : M Agent X) (k : X -> M Agent Y) (a : Agent) (y : Y) :
  outcome (bind m k a) = Ok y ->
  exists x, outcome (m a) = Ok x
            /\ outcome (k x (agent_after (m a))) = Ok y
            /\ events (bind m k a) = events (m a) ++ events (k x (agent_after (m a))).
Proof.
  destruct (outcome (m a)) as [x|e] eqn:E.
  - rewrite (bind_ok _ _ _ _ E). simpl. intro R. now exists x.
  - rewrite (bind_err _ _ _ _ E). discriminate.
Qed.

Lemma split_eq (a : Agent) : split a = (Ok tt, a, pause).
Proof. reflexivity. Qed.

(** [cmd.run(c).success()], spelled out. *)
Lemma run_success_eq {C T} `{Cmd C T} (self : C) (c : str) (a : Agent) :
  exec self c a =
  match as_strs (full_cmd self c) with
  | None => (Err TypeError, a, [])
  | Some argv =>
      (answer loads self (snd (relayer a argv)), fst (relayer a argv),
       exchange (upcast self) argv (snd (relayer a argv)))
  end.
Proof.
  unfold run_success, Cmd_run, bind, lift, py_join, subprocess_run, log, emit, ret,
    raise, answer, json_loads, exchange.
  destruct (as_strs (full_cmd self c)) as [argv|]; [|reflexivity].
  destruct (relayer a argv) as [a' stdout]; simpl.
  destruct (loads (last_line stdout)) as [reply|]; [|reflexivity]. simpl.
  now destruct (success (mkCmdResult self reply)).
Qed.

Lemma step_eq {C T X} `{Cmd C T} (self : C) (c : str) (a : Agent)
  (f : T -> X) (message : T -> list Frag) :
  finish f message (exec self c a) =
  match as_strs (full_cmd self c) with
  | None => (Err TypeError, a, [])
  | Some argv =>
      let stdout := snd (relayer a argv) in
      match answer loads self stdout with
      | Ok x => (Ok (f x), fst (relayer a argv),
                 exchange (upcast self) argv stdout ++ [Logged INFO (message x)])
      | Err e => (Err e, fst (relayer a argv), exchange (upcast self) argv stdout)
      end
  end.
Proof.
  rewrite run_success_eq. destruct (as_strs (full_cmd self c)) as [argv|]; [|reflexivity].
  simpl. now destruct (answer loads self (snd (relayer a argv))).
Qed.

(** Each step function is [cmd.run(c).success()] followed by a log line. *)
Ltac step_function :=
  intros; unfold finish, bind, log, emit, ret;
  match goal with
  | |- context [exec ?self ?c ?a] => destruct (exec self c a) as [[[x|e] a'] t]
  end; reflexivity.

Lemma create_client_eq c dst src a :
  create_client loads Agent relayer c dst src a =
  finish (fun client => client)
         (fun client => [Lit (lit "Created client: ");
                         Fmt (TxCreateClientRes.client_id client)])
         (exec (TxCreateClient.mk dst src) c a).
Proof. unfold create_client. step_function. Qed.

Lemma update_client_eq c dst src client_id a :
  update_client loads Agent relayer c dst src client_id a =
  finish (fun res => res)
         (fun res => [Lit (lit "Updated client to: ");
                      FmtHeight (TxUpdateClientRes.consensus_height res)])
         (exec (TxUpdateClient.mk dst src client_id) c a).
Proof. unfold update_client. step_function. Qed.

Lemma query_client_state_eq c chain_id client_id a :
  query_client_state loads Agent relayer c chain_id client_id a =
  finish (fun res => res)
         (fun res => [Lit (lit "Client is at: ");
                      FmtHeight (QueryClientStateRes.latest_height res)])
         (exec (QueryClientState.mk chain_id client_id None false) c a).
Proof. unfold query_client_state. step_function. Qed.

Lemma conn_init_eq c src dst src_client dst_client a :
  conn_init loads Agent relayer c src dst src_client dst_client a =
  finish TxConnInitRes.connection_id
         (fun res => [Lit (lit "ConnOpen init submitted to "); Fmt dst;
                      Lit (lit " and obtained connection id ");
                      Fmt (TxConnInitRes.connection_id res)])
         (exec (TxConnInit.mk src dst src_client dst_client) c a).
Proof. unfold conn_init. step_function. Qed.

Lemma conn_try_eq c src dst src_client dst_client src_conn a :
  conn_try loads Agent relayer c src dst src_client dst_client src_conn a =
  finish TxConnTryRes.connection_id
         (fun res => [Lit (lit "ConnOpen try submitted to "); Fmt dst;
                      Lit (lit " and obtained connection id ");
                      Fmt (TxConnTryRes.connection_id res)])
         (exec (TxConnTry.mk src dst src_client dst_client src_conn) c a).
Proof. unfold conn_try. step_function. Qed.

Lemma conn_ack_eq c src dst src_client dst_client src_conn dst_conn a :
  conn_ack loads Agent relayer c src dst src_client dst_client src_conn dst_conn a =
  finish TxConnAckRes.connection_id
         (fun res => [Lit (lit "ConnOpen ack submitted to "); Fmt dst;
                      Lit (lit " and obtained connection id ");
                      Fmt (TxConnAckRes.connection_id res)])
         (exec (TxConnAck.mk src dst src_client dst_client src_conn dst_conn) c a).
Proof. unfold conn_ack. step_function. Qed.

Lemma conn_confirm_eq c src dst src_client dst_client src_conn dst_conn a :
  conn_confirm loads Agent relayer c src dst src_client dst_client src_conn dst_conn a =
  finish TxConnConfirmRes.connection_id
         (fun res => [Lit (lit "ConnOpen confirm submitted to "); Fmt dst;
                      Lit (lit " and obtained connection id ");
                      Fmt (TxConnConfirmRes.connection_id res)])
         (exec (TxConnConfirm.mk src dst src_client dst_client src_conn dst_conn) c a).
Proof. unfold conn_confirm. step_function. Qed.

(** A step that returns has spawned its command and read its reply. *)
Lemma step_returns {C T X} `{Cmd C T} (self : C) (c : str) (a : Agent)
  (f : T -> X) (message : T -> list Frag) (v : X) :
  outcome (finish f message (exec self c a)) = Ok v ->
  exists argv x,
    as_strs (full_cmd self c) = Some argv
    /\ answer loads self (snd (relayer a argv)) = Ok x
    /\ v = f x
    /\ agent_after (finish f message (exec self c a)) = fst (relayer a argv)
    /\ events (finish f message (exec self c a))
       = exchange (upcast self) argv (snd (relayer a argv)) ++ [Logged INFO (message x)].
Proof.
  rewrite step_eq. destruct (as_strs (full_cmd self c)) as [argv|]; [|discriminate].
  simpl. destruct (answer loads self (snd (relayer a argv))) as [x|e] eqn:E; [|discriminate].
  simpl. intro R. injection R as <-. now exists argv, x.
Qed.

Ltac peel R x :=
  let E := fresh "E" in
  let R1 := fresh "R" in
  apply bind_returns in R as (x & R1 & R & E); cbv beta in R, E; rewrite E; clear E.

Lemma answer_loaded {C T} `{Cmd C T} (self : C) (stdout : str) (x : T) :
  answer loads self stdout = Ok x ->
  exists reply, loads (last_line stdout) = Some reply
                /\ success (mkCmdResult self reply) = Ok x.
Proof.
  unfold answer, json_loads. destruct (loads (last_line stdout)) as [reply|]; [|discriminate].
  simpl. intro E. now exists reply.
Qed.

(** ** The client lifecycle *)

(** C6.  Whenever the client lifecycle returns, for any two chain
    identities, it has issued exactly four commands, CREATE, QUERY,
    UPDATE, QUERY in that order, and the ClientId it returns is the one
    CREATE produced: the client_id of the typed result of the first
    command's reply.  The descriptors of the later commands are made of
    dst, src and that ClientId alone, so no step takes a Height. *)
Theorem lifecycle_commands (c : str) (dst src : ChainId) (a : Agent) (v : ClientId) :
  let o := create_update_query_client loads Agent relayer c dst src a in
  outcome o = Ok v ->
  commands (events o) =
    [ACreateClient (TxCreateClient.mk dst src);
     AQueryClientState (QueryClientState.mk dst v None false);
     AUpdateClient (TxUpdateClient.mk dst src v);
     AQueryClientState (QueryClientState.mk dst v None false)]
  /\ exists argv stdout reply rest,
       events o = exchange (ACreateClient (TxCreateClient.mk dst src)) argv stdout ++ rest
       /\ loads (last_line stdout) = Some reply
       /\ success (mkCmdResult (TxCreateClient.mk dst src) reply)
          = Ok (TxCreateClientRes.mk v).
Proof.
  intros o R. unfold o, create_update_query_client in *.
  peel R client. peel R u1. peel R q1. peel R u2. peel R upd. peel R u3. peel R q2.
  peel R u4. injection R as <-.
  rewrite !query_client_state_eq, update_client_eq, create_client_eq in *.
  apply step_returns in R0 as (argv0 & x0 & S0 & A0 & -> & _ & ->).
  apply step_returns in R2 as (argv2 & x2 & S2 & A2 & -> & _ & ->).
  apply step_returns in R4 as (argv4 & x4 & S4 & A4 & -> & _ & ->).
  apply step_returns in R6 as (argv6 & x6 & S6 & A6 & -> & _ & ->).
  split.
  - rewrite !commands_app. reflexivity.
  - apply answer_loaded in A0 as (reply & L & Sx).
    exists argv0, (snd (relayer a argv0)), reply. eexists.
    split; [|split].
    + rewrite <- app_assoc. reflexivity.
    + exact L.
    + now destruct x0.
Qed.

(** ** The connection handshake *)

(** A step that raises after its arguments proved to be strings has
    spawned its command all the same. *)
Lemma step_spawns {C T X} `{Cmd C T} (self : C) (c : str) (a : Agent)
  (f : T -> X) (message : T -> list Frag) (operands : list str) :
  as_strs (args self) = Some operands ->
  exists argv stdout,
    In (Spawned (upcast self) argv stdout) (events (finish f message (exec self c a))).
Proof.
  intro S. rewrite step_eq, full_cmd_strs, S.
  exists (argv_of c (name self) operands), (snd (relayer a (argv_of c (name self) operands))).
  simpl. destruct (answer loads self _); simpl; auto.
Qed.

Lemma as_strs_six (v1 v2 v3 v4 v5 v6 : Any) (operands : list str) :
  as_strs [v1; v2; v3; v4; v5; v6] = Some operands ->
  exists s1 s2 s3 s4 s5 s6,
    v1 = PyStr s1 /\ v2 = PyStr s2 /\ v3 = PyStr s3 /\ v4 = PyStr s4
    /\ v5 = PyStr s5 /\ v6 = PyStr s6.
Proof.
  destruct v1; try discriminate. destruct v2; try discriminate.
  destruct v3; try discriminate. destruct v4; try discriminate.
  destruct v5; try discriminate. destruct v6; try discriminate.
  intros _. repeat eexists.
Qed.

(** C3.  Once INIT, TRY and ACK have returned ids a_conn, b_conn and
    ack_res, the handshake issues CONFIRM whatever ack_res is, logs an
    error when ack_res differs from a_conn (and when the CONFIRM result
    differs from b_conn), and, if CONFIRM returns, returns (a_conn,
    b_conn) whatever ACK and CONFIRM returned. *)
Theorem handshake_mismatch_not_fatal (c : str) (side_a side_b : ChainId)
  (client_a client_b : ClientId) (a : Agent) (a_conn b_conn ack_res : ConnectionId) :
  let o1 := conn_init loads Agent relayer c side_a side_b client_a client_b a in
  outcome o1 = Ok a_conn ->
  let o2 := conn_try loads Agent relayer c side_b side_a client_b client_a a_conn
              (agent_after o1) in
  outcome o2 = Ok b_conn ->
  let o3 := conn_ack loads Agent relayer c side_a side_b client_a client_b b_conn a_conn
              (agent_after o2) in
  outcome o3 = Ok ack_res ->
  let o4 := conn_confirm loads Agent relayer c side_b side_a client_b client_a a_conn b_conn
              (agent_after o3) in
  let o := connection_handshake loads Agent relayer c side_a side_b client_a client_b a in
  (exists argv stdout,
     In (Spawned (AConnConfirm
                    (TxConnConfirm.mk side_b side_a client_b client_a a_conn b_conn))
                 argv stdout) (events o4))
  /\ outcome o = match outcome o4 with
                 | Ok _ => Ok (a_conn, b_conn)
                 | Err e => Err e
                 end
  /\ events o =
       events o1 ++ pause ++ events o2 ++ pause ++ events o3
       ++ (if py_ne ack_res a_conn
           then [Logged ERROR (mismatch "ack" a_conn ack_res)] else [])
       ++ pause ++ events o4
       ++ match outcome o4 with
          | Ok confirm_res =>
              if py_ne confirm_res b_conn
              then [Logged ERROR (mismatch "confirm" b_conn confirm_res)] else []
          | Err _ => []
          end.
Proof.
  intros o1 R1 o2 R2 o3 R3 o4 o. split.
  - unfold o3 in R3. rewrite conn_ack_eq in R3.
    apply step_returns in R3 as (argv & x & S & _).
    rewrite full_cmd_strs in S.
    destruct (as_strs (args (TxConnAck.mk side_a side_b client_a client_b b_conn a_conn)))
      as [operands|] eqn:Sa; [|discriminate].
    apply as_strs_six in Sa as (s1 & s2 & s3 & s4 & s5 & s6 & E1 & E2 & E3 & E4 & E5 & E6).
    simpl in E1, E2, E3, E4, E5, E6. unfold o4. rewrite conn_confirm_eq.
    assert (Sc : as_strs (args (TxConnConfirm.mk side_b side_a client_b client_a
                                                 a_conn b_conn))
                 = Some [s2; s1; s4; s3; s6; s5])
      by (simpl; now rewrite E1, E2, E3, E4, E5, E6).
    exact (step_spawns _ c _ _ _ _ Sc).
  - unfold o, connection_handshake, bind.
    unfold o1, o2, o3, o4, outcome, events, agent_after in *.
    destruct (conn_init loads Agent relayer c side_a side_b client_a client_b a)
      as [[r1 a1] t1]. simpl in *. subst r1.
    destruct (conn_try loads Agent relayer c side_b side_a client_b client_a a_conn a1)
      as [[r2 a2] t2]. simpl in *. subst r2.
    destruct (conn_ack loads Agent relayer c side_a side_b client_a client_b b_conn a_conn a2)
      as [[r3 a3] t3]. simpl in *. subst r3.
    destruct (py_ne ack_res a_conn); simpl;
      destruct (conn_confirm loads Agent relayer c side_b side_a client_b client_a
                  a_conn b_conn a3) as [[[confirm_res|e] a4] t4]; simpl;
      try destruct (py_ne confirm_res b_conn); simpl;
      (split; [reflexivity|]);
      unfold pause; simpl; rewrite ?app_nil_r; reflexivity.
Qed.

(** ** The executor *)

(** C5, as the code has it.  Cmd.run decodes the last line of the
    output as splitlines gives it, empty or not: a line closed by one
    line feed is the last line, whatever precedes it, so a JSON line at
    the very end is the one decoded; an output that ends with an empty
    line has the empty string decoded. *)
Theorem Cmd_run_decodes_last_line {C T} `{Cmd C T} (self : C) (c : str) (a : Agent)
  (argv : list str) :
  as_strs (full_cmd self c) = Some argv ->
  let stdout := snd (relayer a argv) in
  Cmd_run loads Agent relayer self c a =
    (match loads (last (splitlines stdout) []) with
     | Some reply => Ok (mkCmdResult self reply)
     | None => Err JSONDecodeError
     end, fst (relayer a argv), exchange (upcast self) argv stdout)
  /\ (forall noise line,
        forallb (fun ch => negb (is_linebreak ch)) line = true ->
        stdout = noise ++ 10%N :: line ++ [10%N] -> last (splitlines stdout) [] = line)
  /\ (forall line,
        forallb (fun ch => negb (is_linebreak ch)) line = true ->
        stdout = line ++ [10%N] -> last (splitlines stdout) [] = line)
  /\ (forall body, stdout = body ++ [10%N; 10%N] -> last (splitlines stdout) [] = []).
Proof.
  intros S stdout. split; [|split; [|split]].
  - unfold Cmd_run, bind, lift, py_join, subprocess_run, log, emit, ret, raise,
      json_loads, exchange. rewrite S. unfold stdout.
    destruct (relayer a argv) as [a' out]; simpl.
    rewrite <- last_line_last. now destruct (loads (last_line out)).
  - intros noise line E ->. rewrite <- last_line_last. now apply last_line_after_noise.
  - intros line E ->. rewrite <- last_line_last. now apply last_line_alone.
  - intros body ->. rewrite <- last_line_last. apply last_line_blank.
Qed.

(** ** Commands and delays *)

Lemma follows_bind {X Y} (m : M Agent X) (k : X -> M Agent Y) (a : Agent)
  (p1 p2 : list Beat) :
  follows p1 (m a) ->
  (forall x, follows p2 (k x (agent_after (m a)))) ->
  follows (p1 ++ p2) (bind m k a).
Proof.
  unfold follows. intros F1 F2. destruct (outcome (m a)) as [x|e] eqn:E.
  - rewrite (bind_ok _ _ _ _ E). specialize (F2 x). simpl.
    unfold events at 1. simpl. rewrite beats_app, F1.
    destruct (outcome (k x (agent_after (m a)))).
    + now rewrite F2.
    + destruct F2 as [rest ->]. exists rest. now rewrite app_assoc.
  - rewrite (bind_err _ _ _ _ E). simpl. destruct F1 as [rest ->].
    exists (rest ++ p2). unfold events at 1. simpl. now rewrite app_assoc.
Qed.

Lemma follows_step {C T X} `{Cmd C T} (self : C) (c : str) (a : Agent)
  (f : T -> X) (message : T -> list Frag) (s : Step) :
  step_of (upcast self) = s ->
  follows [Issue s] (finish f message (exec self c a)).
Proof.
  intros <-. rewrite step_eq. unfold follows.
  destruct (as_strs (full_cmd self c)) as [argv|]; simpl.
  - destruct (answer loads self (snd (relayer a argv))); simpl; [reflexivity|].
    now exists [].
  - now exists [Issue (step_of (upcast self))].
Qed.

Lemma follows_split (a : Agent) : follows [Delay] (split a).
Proof. reflexivity. Qed.

Lemma follows_ret {X} (x : X) (a : Agent) : follows [] (ret x a).
Proof. reflexivity. Qed.

Lemma follows_report (differs : bool) (message : list Frag) (a : Agent) :
  follows [] ((if differs then log ERROR message else ret tt) a).
Proof. now destruct differs. Qed.

Ltac follow :=
  repeat match goal with
         | |- follows _ (bind _ _ _) => apply follows_bind; [|intros ?]
         | |- follows _ (split _) => apply follows_split
         | |- follows _ (ret _ _) => apply follows_ret
         | |- follows _ ((if _ then _ else _) _) => apply follows_report
         | |- follows _ (create_client _ _ _ _ _ _ _) =>
             rewrite create_client_eq; apply follows_step; reflexivity
         | |- follows _ (update_client _ _ _ _ _ _ _ _) =>
             rewrite update_client_eq; apply follows_step; reflexivity
         | |- follows _ (query_client_state _ _ _ _ _ _ _) =>
             rewrite query_client_state_eq; apply follows_step; reflexivity
         | |- follows _ (conn_init _ _ _ _ _ _ _ _ _) =>
             rewrite conn_init_eq; apply follows_step; reflexivity
         | |- follows _ (conn_try _ _ _ _ _ _ _ _ _ _) =>
             rewrite conn_try_eq; apply follows_step; reflexivity
         | |- follows _ (conn_ack _ _ _ _ _ _ _ _ _ _ _) =>
             rewrite conn_ack_eq; apply follows_step; reflexivity
         | |- follows _ (conn_confirm _ _ _ _ _ _ _ _ _ _ _) =>
             rewrite conn_confirm_eq; apply follows_step; reflexivity
         end.

Lemma lifecycle_follows (c : str) (dst src : ChainId) (a : Agent) :
  follows lifecycle_beats (create_update_query_client loads Agent relayer c dst src a).
Proof.
  unfold create_update_query_client.
  change lifecycle_beats with
    ([Issue CREATE] ++ [Delay] ++ [Issue QUERY] ++ [Delay] ++ [Issue UPDATE] ++ [Delay]
       ++ [Issue QUERY] ++ [Delay] ++ []).
  follow.
Qed.

Lemma handshake_follows (c : str) (side_a side_b : ChainId) (client_a client_b : ClientId)
  (a : Agent) :
  follows handshake_beats
    (connection_handshake loads Agent relayer c side_a side_b client_a client_b a).
Proof.
  unfold connection_handshake.
  change handshake_beats with
    ([Issue INIT] ++ [Delay] ++ [Issue TRY] ++ [Delay] ++ [Issue ACK] ++ [] ++ [Delay]
       ++ [Issue CONFIRM] ++ [] ++ []).
  follow.
Qed.

Lemma run_follows (c : str) (a : Agent) : follows run_beats (run loads Agent relayer c a).
Proof.
  unfold run, run_beats.
  apply follows_bind; [apply lifecycle_follows | intros ?].
  apply follows_bind; [apply lifecycle_follows | intros ?].
  apply follows_bind; [apply follows_split | intros ?].
  rewrite <- (app_nil_r handshake_beats).
  apply follows_bind; [apply handshake_follows | intros ?].
  apply follows_ret.
Qed.

(** Within the beats of a whole run, whatever comes after a command
    begins with a delay. *)
Lemma run_beats_delay (before after : list Beat) (s : Step) :
  run_beats = before ++ Issue s :: after ->
  after = [] \/ exists rest, after = Delay :: rest.
Proof.
  unfold run_beats, lifecycle_beats, handshake_beats. simpl. intro E.
  repeat (destruct before as [|? before];
          [first [discriminate | injection E as _ <-; eauto]
          |simpl in E; injection E as _ E]).
  now destruct before.
Qed.

(** C8, as the code has it.  The commands and delays of every run are,
    in order: each of the four lifecycle steps of each direction
    followed by a delay, one more delay, then INIT, delay, TRY, delay,
    ACK, delay, CONFIRM; all of it when the run returns, a beginning of
    it when it raises.  So every command after which the run goes on is
    followed by a delay before anything else is issued, and no delay
    follows CONFIRM, the last step. *)
Theorem run_delays (c : str) (a : Agent) :
  let o := run loads Agent relayer c a in
  match outcome o with
  | Ok _ => beats (events o) = run_beats
  | Err _ => exists rest, run_beats = beats (events o) ++ rest
  end
  /\ forall pre cmd argv stdout post,
       events o = pre ++ Spawned cmd argv stdout :: post ->
       beats post = [] \/ exists rest, beats post = Delay :: rest.
Proof.
  intro o. pose proof (run_follows c a) as F. fold o in F. split; [exact F|].
  intros pre cmd argv stdout post E.
  assert (P : exists rest, run_beats = beats (events o) ++ rest).
  { unfold follows in F. destruct (outcome o); [exists []; now rewrite app_nil_r | exact F]. }
  destruct P as [rest P]. rewrite E, beats_app in P. simpl in P.
  rewrite <- app_assoc in P. simpl in P.
  apply run_beats_delay in P as [P | [rest' P]].
  - apply app_eq_nil in P as [-> _]. now left.
  - destruct (beats post) as [|b tail]; [now left|].
    right. injection P as -> _. now exists tail.
Qed.

(** ** Failed replies *)

(** A reply whose status is not "success" makes ExpectedSuccess of the
    answer. *)
Lemma failed_answer {C T} `{Cmd C T} (self : C) (stdout : str) (status payload : Any) :
  failed_with loads stdout status payload ->
  answer loads self stdout = Err (ExpectedSuccess (upcast self) status payload).
Proof.
  intros (reply & L & -> & -> & N). unfold answer, json_loads.
  unfold reply_of in L. rewrite L. simpl. rewrite success_eq.
  now rewrite (py_eq_str_false _ _ N).
Qed.

Lemma commands_in (t pre post : list Event) cmd argv stdout :
  t = pre ++ Spawned cmd argv stdout :: post -> commands t <> [].
Proof.
  intros ->. rewrite commands_app. simpl. now destruct (commands pre).
Qed.

Lemma stops_quiet {X} (o : Result X * Agent * list Event) :
  commands (events o) = [] -> stops_at_failure loads o.
Proof.
  intros Q pre cmd argv stdout post status payload E _.
  now apply commands_in in E.
Qed.

Lemma stops_bind {X Y} (m : M Agent X) (k : X -> M Agent Y) (a : Agent) :
  stops_at_failure loads (m a) ->
  (forall x, stops_at_failure loads (k x (agent_after (m a)))) ->
  stops_at_failure loads (bind m k a).
Proof.
  intros S1 S2 pre cmd argv stdout post status payload E F.
  destruct (outcome (m a)) as [x|e] eqn:R.
  - rewrite (bind_ok _ _ _ _ R) in *. unfold events at 1 in E. simpl in E.
    unfold outcome at 1. simpl.
    apply app_eq_app in E as [mid [[E1 E2] | [E1 E2]]].
    + destruct mid as [|ev mid].
      * simpl in E2. symmetry in E2.
        exact (S2 x [] cmd argv stdout post status payload E2 F).
      * injection E2 as <- E2. destruct (S1 _ _ _ _ _ _ _ E1 F) as [Bad _].
        rewrite R in Bad. discriminate.
    + exact (S2 x _ _ _ _ _ _ _ E2 F).
  - rewrite (bind_err _ _ _ _ R) in *.
    destruct (S1 _ _ _ _ _ _ _ E F) as [Re Q]. rewrite R in Re. injection Re as ->.
    split; [reflexivity | exact Q].
Qed.

Lemma exchange_split (cmd0 cmd : AnyCmd) (argv0 argv : list str) (out0 out : str)
  (tail pre post : list Event) :
  commands tail = [] ->
  exchange cmd0 argv0 out0 ++ tail = pre ++ Spawned cmd argv out :: post ->
  cmd = cmd0 /\ out = out0 /\ commands post = [].
Proof.
  unfold exchange. destruct pre as [|p0 [|p1 pre]]; simpl; intros Q E.
  - discriminate.
  - injection E as _ <- _ <- <-. simpl. auto.
  - injection E as _ _ E. apply commands_in in E. simpl in E. contradiction.
Qed.

Lemma stops_step {C T X} `{Cmd C T} (self : C) (c : str) (a : Agent)
  (f : T -> X) (message : T -> list Frag) :
  stops_at_failure loads (finish f message (exec self c a)).
Proof.
  rewrite step_eq. destruct (as_strs (full_cmd self c)) as [argv|];
    [|now apply stops_quiet].
  intros pre cmd argv' stdout post status payload E F. cbv zeta in *.
  destruct (answer loads self (snd (relayer a argv))) as [x|e] eqn:A;
    unfold events in E; simpl in E.
  - apply (exchange_split _ _ _ _ _ _ [Logged INFO (message x)]) in E
      as (-> & -> & Q); [|reflexivity].
    rewrite (failed_answer _ _ _ _ F) in A. discriminate.
  - rewrite <- (app_nil_r (exchange _ _ _)) in E.
    apply exchange_split in E as (-> & -> & Q); [|reflexivity].
    rewrite (failed_answer _ _ _ _ F) in A. injection A as <-. now split.
Qed.

Ltac stop :=
  repeat match goal with
         | |- stops_at_failure _ (bind _ _ _) => apply stops_bind; [|intros ?]
         | |- stops_at_failure _ (split _) => apply stops_quiet; reflexivity
         | |- stops_at_failure _ (ret _ _) => apply stops_quiet; reflexivity
         | |- stops_at_failure _ ((if ?b then _ else _) _) =>
             destruct b; apply stops_quiet; reflexivity
         | |- stops_at_failure _ (create_client _ _ _ _ _ _ _) =>
             rewrite create_client_eq; apply stops_step
         | |- stops_at_failure _ (update_client _ _ _ _ _ _ _ _) =>
             rewrite update_client_eq; apply stops_step
         | |- stops_at_failure _ (query_client_state _ _ _ _ _ _ _) =>
             rewrite query_client_state_eq; apply stops_step
         | |- stops_at_failure _ (conn_init _ _ _ _ _ _ _ _ _) =>
             rewrite conn_init_eq; apply stops_step
         | |- stops_at_failure _ (conn_try _ _ _ _ _ _ _ _ _ _) =>
             rewrite conn_try_eq; apply stops_step
         | |- stops_at_failure _ (conn_ack _ _ _ _ _ _ _ _ _ _ _) =>
             rewrite conn_ack_eq; apply stops_step
         | |- stops_at_failure _ (conn_confirm _ _ _ _ _ _ _ _ _ _ _) =>
             rewrite conn_confirm_eq; apply stops_step
         end.

Lemma run_stops (c : str) (a : Agent) : stops_at_failure loads (run loads Agent relayer c a).
Proof.
  unfold run, create_update_query_client, connection_handshake. stop.
Qed.

(** C4.  If the reply to the first command, CREATE for (ibc-0, ibc-1),
    has a status other than "success", the run raises ExpectedSuccess
    with that command, status and payload, and its trace holds that one
    command and nothing after it.  More generally nothing catches
    ExpectedSuccess: wherever in a run a reply has such a status, the run
    raises ExpectedSuccess for that command and issues no command after
    it. *)
Theorem run_stops_at_first_failure (c : str) (a : Agent) :
  let create := TxCreateClient.mk (PyStr (lit "ibc-0")) (PyStr (lit "ibc-1")) in
  let argv := argv_of c (name create) [lit "ibc-0"; lit "ibc-1"] in
  let stdout := snd (relayer a argv) in
  (forall status payload,
     failed_with loads stdout status payload ->
     run loads Agent relayer c a =
       (Err (ExpectedSuccess (ACreateClient create) status payload),
        fst (relayer a argv), exchange (ACreateClient create) argv stdout))
  /\ (forall pre cmd argv' stdout' post status payload,
        events (run loads Agent relayer c a) = pre ++ Spawned cmd argv' stdout' :: post ->
        failed_with loads stdout' status payload ->
        outcome (run loads Agent relayer c a) = Err (ExpectedSuccess cmd status payload)
        /\ commands post = []).
Proof.
  intros create argv stdout. split; [|exact (run_stops c a)].
  intros status payload F.
  assert (Hc : create_client loads Agent relayer c (PyStr (lit "ibc-0")) (PyStr (lit "ibc-1")) a
               = (Err (ExpectedSuccess (ACreateClient create) status payload),
                  fst (relayer a argv), exchange (ACreateClient create) argv stdout)).
  { subst create argv stdout.
    rewrite create_client_eq, step_eq, full_cmd_strs. simpl as_strs. cbv beta iota zeta.
    now rewrite (failed_answer _ _ _ _ F). }
  unfold run, create_update_query_client, bind. now rewrite Hc.
Qed.

(** ** Conforming replies *)

























(** ** The whole run *)


End Runs.

(** * The program run on scripted replies *)



Lemma handshake_mismatch_not_fatal_witness :
  outcome mismatched_handshake = Ok (text "connection-0", text "connection-1")
  /\ In (Logged ERROR (mismatch "ack" (text "connection-0") (text "connection-7")))
        (events mismatched_handshake)
  /\ map step_of (commands (events mismatched_handshake)) = [INIT; TRY; ACK; CONFIRM].
Proof.
  destruct (handshake_mismatch_not_fatal table_loads (list str) scripted config ibc1 ibc0
              (text "07-tendermint-1") (text "07-tendermint-0")
              (handshake_script "connection-7")
              (text "connection-0") (text "connection-1") (text "connection-7")
              ltac:(vm_compute; reflexivity) ltac:(vm_compute; reflexivity)
              ltac:(vm_compute; reflexivity))
    as (_ & R & Ev).
  fold mismatched_handshake in R, Ev. split; [|split].
  - rewrite R. vm_compute. reflexivity.
  - rewrite Ev. apply in_or_app. right. apply in_or_app. right.
    apply in_or_app. right. apply in_or_app. right.
    apply in_or_app. right. apply in_or_app. left.
    vm_compute. left. reflexivity.
  - rewrite Ev. vm_compute. reflexivity.
Defined.

Lemma run_stops_at_first_failure_witness :
  outcome boom_run
    = Err (ExpectedSuccess (ACreateClient create01) (text "error")
             (obj [("msg", text "boom")]%string))
  /\ length (commands (events boom_run)) = 1
  /\ outcome refused_run
     = Err (ExpectedSuccess (ACreateClient (TxCreateClient.mk ibc1 ibc0)) (text "error")
              (obj [("msg", text "boom")]%string)).
Proof.
  assert (F : forall stdout, stdout = printed boom ->
                failed_with table_loads stdout (text "error")
                  (obj [("msg", text "boom")]%string)).
  { intros stdout ->.
    exists [(lit "status", text "error"); (lit "result", obj [("msg", text "boom")]%string)].
    split; [vm_compute; reflexivity|]. split; [reflexivity|]. split; [reflexivity|].
    discriminate. }
  destruct (run_stops_at_first_failure table_loads (list str) scripted config [printed boom])
    as [first _].
  destruct (run_stops_at_first_failure table_loads (list str) scripted config refused_script)
    as [_ anywhere].
  fold boom_run in first. fold refused_run in anywhere.
  split; [|split].
  - rewrite (first _ _ (F _ eq_refl)). reflexivity.
  - rewrite (first _ _ (F _ eq_refl)). reflexivity.
  - refine (proj1 (anywhere (firstn 25 (events refused_run))
                     (ACreateClient (TxCreateClient.mk ibc1 ibc0))
                     (argv_of config (lit "tx raw create-client") [lit "ibc-1"; lit "ibc-0"])
                     (printed boom) (skipn 26 (events refused_run)) _ _ _ (F _ eq_refl))).
    vm_compute. reflexivity.
Defined.

(** Against C5 as the specification words it: on an output that ends
    with an empty line, Cmd.run decodes the empty last line and raises,
    although the last line that is not empty is a reply that decodes. *)
Lemma Cmd_run_blank_last_line :
  outcome (Cmd_run table_loads (list str) scripted create01 config
             [padded (created "07-tendermint-0")])
    = Err JSONDecodeError
  /\ last_line (padded (created "07-tendermint-0")) = []
  /\ last_nonempty_line (padded (created "07-tendermint-0"))
     = render (created "07-tendermint-0")
  /\ table_loads (last_nonempty_line (padded (created "07-tendermint-0")))
     = Some (created "07-tendermint-0").
Proof. vm_compute. repeat split. Qed.

Lemma Cmd_run_decodes_last_line_witness :
  outcome (Cmd_run table_loads (list str) scripted create01 config
             [printed (created "07-tendermint-0")])
    = Ok (mkCmdResult create01 (created "07-tendermint-0"))
  /\ outcome (Cmd_run table_loads (list str) scripted create01 config
                [padded (created "07-tendermint-0")])
     = Err JSONDecodeError.
Proof.
  assert (S : as_strs (full_cmd create01 config)
              = Some (argv_of config (lit "tx raw create-client")
                        [lit "ibc-0"; lit "ibc-1"]))
    by (vm_compute; reflexivity).
  split.
  - destruct (Cmd_run_decodes_last_line table_loads (list str) scripted create01 config
                [printed (created "07-tendermint-0")] _ S) as (run_eq & after_noise & _).
    rewrite run_eq.
    rewrite (after_noise (lit "    Finished dev [unoptimized + debuginfo]")
               (render (created "07-tendermint-0")));
      [reflexivity | vm_compute; reflexivity | reflexivity].
  - destruct (Cmd_run_decodes_last_line table_loads (list str) scripted create01 config
                [padded (created "07-tendermint-0")] _ S) as (run_eq & _ & _ & blank).
    rewrite run_eq. rewrite (blank (render (created "07-tendermint-0")) eq_refl).
    reflexivity.
Defined.

Lemma lifecycle_commands_witness :
  outcome good_lifecycle = Ok (text "07-tendermint-0")
  /\ map step_of (commands (events good_lifecycle)) = [CREATE; QUERY; UPDATE; QUERY].
Proof.
  destruct (lifecycle_commands table_loads (list str) scripted config ibc0 ibc1
              (lifecycle_script "07-tendermint-0") (text "07-tendermint-0")
              ltac:(vm_compute; reflexivity)) as (Cs & _).
  fold good_lifecycle in Cs. split; [vm_compute; reflexivity|]. now rewrite Cs.
Defined.

(** Against C8 as the specification words it: in a run that returns, no
    delay follows the last command. *)
Lemma confirm_not_followed_by_delay :
  outcome good_run = Ok tt
  /\ ~ every_command_followed_by_delay (events good_run).
Proof.
  split; [vm_compute; reflexivity|]. intro D.
  destruct (D (firstn 69 (events good_run))
              (AConnConfirm (TxConnConfirm.mk ibc0 ibc1
                               (text "07-tendermint-0") (text "07-tendermint-1")
                               (text "connection-0") (text "connection-1")))
              (argv_of config (lit "tx raw conn-confirm")
                 [lit "ibc-1"; lit "ibc-0"; lit "07-tendermint-1"; lit "07-tendermint-0";
                  lit "connection-1"; lit "connection-0"])
              (printed (connected "OpenConfirmConnection" "connection-1"))
              (skipn 70 (events good_run))) as [ms I].
  - vm_compute. reflexivity.
  - vm_compute in I. repeat (destruct I as [I | I]; [discriminate|]). exact I.
Qed.

(** * Further properties *)

(** ** Splitting and joining *)

Lemma str_split_cons (sep : N) (s : str) :
  exists piece pieces, str_split sep s = piece :: pieces.
Proof.
  destruct s as [|ch s]; simpl; [now exists [], []|].
  destruct (N.eqb ch sep); [now exists [], (str_split sep s)|].
  destruct (str_split sep s) as [|piece pieces]; [now exists [ch], []|].
  now exists (ch :: piece), pieces.
Qed.

Lemma str_join_cons (sep x : str) (y : str) (rest : list str) :
  str_join sep (x :: y :: rest) = x ++ sep ++ str_join sep (y :: rest).
Proof. reflexivity. Qed.

(** [sep.join(s.split(sep))] is [s]. *)
Lemma str_split_join (sep : N) (s : str) : str_join [sep] (str_split sep s) = s.
Proof.
  induction s as [|ch s IH]; [reflexivity|]. simpl.
  destruct (str_split_cons sep s) as (piece & pieces & E). rewrite E in *.
  destruct (N.eqb ch sep) eqn:B.
  - apply N.eqb_eq in B. subst ch. rewrite <- IH. reflexivity.
  - rewrite <- IH. now destruct pieces.
Qed.

Lemma str_split_no_sep (sep : N) (s : str) :
  Forall (fun token => ~ In sep token) (str_split sep s).
Proof.
  induction s as [|ch s IH]; simpl; [repeat constructor; auto|].
  destruct (N.eqb ch sep) eqn:B.
  - constructor; auto.
  - apply N.eqb_neq in B. destruct (str_split sep s) as [|piece pieces].
    + repeat constructor. intros [E | []]. congruence.
    + inversion IH as [|? ? P Ps]; subst. constructor; [|exact Ps].
      intros [E | I]; [congruence | contradiction].
Qed.

Lemma str_split_length (sep : N) (s : str) :
  length (str_split sep s) = S (count_occ N.eq_dec s sep).
Proof.
  induction s as [|ch s IH]; [reflexivity|]. simpl.
  destruct (N.eqb ch sep) eqn:B.
  - apply N.eqb_eq in B. subst ch. destruct (N.eq_dec sep sep); [|contradiction].
    simpl. now rewrite IH.
  - apply N.eqb_neq in B. destruct (N.eq_dec ch sep); [contradiction|].
    destruct (str_split sep s); simpl in *; [discriminate | exact IH].
Qed.

Lemma str_split_whole (sep : N) (s : str) : ~ In sep s -> str_split sep s = [s].
Proof.
  induction s as [|ch s IH]; [reflexivity|]. simpl. intro N.
  destruct (N.eqb ch sep) eqn:B.
  - apply N.eqb_eq in B. subst ch. exfalso. apply N. now left.
  - rewrite IH; [reflexivity|]. intro I. apply N. now right.
Qed.

Lemma str_join_app (sep : str) (l1 l2 : list str) :
  l1 <> [] -> l2 <> [] ->
  str_join sep (l1 ++ l2) = str_join sep l1 ++ sep ++ str_join sep l2.
Proof.
  intros N1 N2. induction l1 as [|x [|y l1] IH]; [contradiction| |].
  - destruct l2 as [|z l2]; [contradiction | reflexivity].
  - change (str_join sep (x :: (y :: l1) ++ l2)
            = (x ++ sep ++ str_join sep (y :: l1)) ++ sep ++ str_join sep l2).
    change (x :: (y :: l1) ++ l2) with (x :: y :: (l1 ++ l2)).
    rewrite str_join_cons. change (y :: l1 ++ l2) with ((y :: l1) ++ l2).
    rewrite IH by discriminate. now rewrite <- !app_assoc.
Qed.

Lemma str_split_app_sep (sep : N) (a b : str) :
  ~ In sep a -> str_split sep (a ++ sep :: b) = a :: str_split sep b.
Proof.
  induction a as [|ch a IH]; simpl; intro N.
  - now rewrite N.eqb_refl.
  - destruct (N.eqb ch sep) eqn:B.
    + apply N.eqb_eq in B. exfalso. apply N. now left.
    + rewrite IH; [reflexivity|]. intro I. apply N. now right.
Qed.

Ltac not_among :=
  let I := fresh "I" in
  intro I; vm_compute in I; repeat (destruct I as [I | I]; [discriminate|]); exact I.

Lemma launcher_split (c : str) :
  str_split 32 (launcher_text ++ c) = launcher ++ str_split 32 c.
Proof.
  change (launcher_text ++ c) with
    (lit "cargo" ++ 32%N :: lit "run" ++ 32%N :: lit "--bin" ++ 32%N :: lit "relayer"
       ++ 32%N :: lit "--" ++ 32%N :: lit "-c" ++ 32%N :: c).
  rewrite !str_split_app_sep by not_among. reflexivity.
Qed.

(** ** The command line *)

(** The command line of a descriptor whose arguments are all strings is
    the six launcher tokens, the configuration split at every space, the
    operation name split at every space, and the arguments; a
    configuration path with k spaces makes k+1 tokens (one when it has
    none), and no token ahead of the arguments holds a space. *)
Theorem full_cmd_tokens {C T} `{Cmd C T} (self : C) (c : str) (operands : list str) :
  as_strs (args self) = Some operands ->
  as_strs (full_cmd self c)
    = Some (launcher ++ str_split 32 c ++ str_split 32 (name self) ++ operands)
  /\ length (str_split 32 c) = S (count_occ N.eq_dec c 32%N)
  /\ (~ In 32%N c -> str_split 32 c = [c])
  /\ Forall (fun token => ~ In 32%N token)
       (launcher ++ str_split 32 c ++ str_split 32 (name self)).
Proof.
  intro S. split; [|split; [|split]].
  - rewrite full_cmd_strs, S. unfold argv_of.
    change (lit "cargo run --bin relayer -- -c " ++ c) with (launcher_text ++ c).
    now rewrite launcher_split, <- app_assoc.
  - apply str_split_length.
  - apply str_split_whole.
  - rewrite app_assoc. apply Forall_app. split.
    + rewrite <- launcher_split. apply str_split_no_sep.
    + apply str_split_no_sep.
Qed.

(** ** The line that is decoded *)

Lemma splitlines_unbroken (s : str) :
  Forall (fun line => unbroken line = true) (splitlines s).
Proof.
  remember (length s) as n eqn:L. revert s L.
  induction n as [n IH] using lt_wf_ind. intros [|ch s] L; [constructor|].
  simpl. destruct (is_linebreak ch) eqn:B.
  - destruct s as [|ch2 s]; [repeat constructor|].
    destruct (N.eqb ch 13 && N.eqb ch2 10); constructor; try reflexivity.
    + apply (IH (length s)); [subst; simpl; lia | reflexivity].
    + apply (IH (length (ch2 :: s))); [subst; simpl; lia | reflexivity].
  - assert (F : Forall (fun line => unbroken line = true) (splitlines s))
      by (apply (IH (length s)); [subst; simpl; lia | reflexivity]).
    destruct (splitlines s) as [|line lines].
    + repeat constructor. unfold unbroken. simpl. now rewrite B.
    + inversion F as [|? ? U Us]; subst. constructor; [|exact Us].
      unfold unbroken in *. simpl. now rewrite B.
Qed.

Lemma splitlines_terminated (line : str) (terminator : N) :
  unbroken line = true -> is_linebreak terminator = true ->
  splitlines (line ++ [terminator]) = [line].
Proof.
  intros U B. induction line as [|ch line IH].
  - simpl. now rewrite B.
  - unfold unbroken in U. simpl in U. apply andb_true_iff in U as [Bc U].
    apply negb_true_iff in Bc. simpl. rewrite Bc, (IH U). reflexivity.
Qed.

Lemma splitlines_crlf (line : str) :
  unbroken line = true -> splitlines (line ++ [13%N; 10%N]) = [line].
Proof.
  intros U. induction line as [|ch line IH]; [reflexivity|].
  unfold unbroken in U. simpl in U. apply andb_true_iff in U as [Bc U].
  apply negb_true_iff in Bc. simpl. rewrite Bc, (IH U). reflexivity.
Qed.

(** The line handed to json.loads never holds a line boundary; it is
    empty for an empty output; and a last line closed by any one line
    terminator, or by a carriage return and a line feed, is taken without
    its terminator. *)
Theorem last_line_unbroken (stdout : str) :
  unbroken (last_line stdout) = true
  /\ last_line [] = []
  /\ (forall line terminator,
        unbroken line = true -> is_linebreak terminator = true ->
        stdout = line ++ [terminator] -> last_line stdout = line)
  /\ (forall line,
        unbroken line = true ->
        stdout = line ++ [13%N; 10%N] -> last_line stdout = line).
Proof.
  split; [|split; [reflexivity | split]].
  - rewrite last_line_last.
    pose proof (splitlines_unbroken stdout) as F.
    induction F as [|line [|next lines] U F IH]; try reflexivity; [exact U | exact IH].
  - intros line terminator U B ->.
    now rewrite last_line_last, (splitlines_terminated _ _ U B).
  - intros line U ->. now rewrite last_line_last, (splitlines_crlf _ U).
Qed.

(** ** Reading the payload *)

(** process reads the first element of the payload and, in it, the one
    key it looks up: further elements of the array and entries under
    other keys change nothing. *)
Theorem process_reads_first_element (cmd : AnyCmd) (first : Any) (rest rest' : list Any) :
  process_any cmd (PyList (first :: rest)) = process_any cmd (PyList (first :: rest'))
  /\ (forall entries key v,
        first = PyDict entries ->
        str_eqb key (lit (top_key cmd)) = false ->
        process_any cmd (PyList (PyDict ((key, v) :: entries) :: rest))
        = process_any cmd (PyList (first :: rest))).
Proof.
  split.
  - destruct cmd; reflexivity.
  - intros entries key v -> K.
    destruct cmd; unfold top_key in K; simpl in K; expose; simpl; now rewrite K.
Qed.

(** ** The executor, further *)

Section Further.

Variable loads : str -> option Any.
Variable Agent : Type.
Variable relayer : Agent -> list str -> Agent * str.

Local Abbreviation exec := (run_success loads Agent relayer).

Lemma Cmd_run_eq {C T} `{Cmd C T} (self : C) (c : str) (a : Agent) :
  Cmd_run loads Agent relayer self c a =
  match as_strs (full_cmd self c) with
  | None => (Err TypeError, a, [])
  | Some argv =>
      (rbind (json_loads loads (last_line (snd (relayer a argv))))
             (fun reply => Ok (mkCmdResult self reply)),
       fst (relayer a argv), exchange (upcast self) argv (snd (relayer a argv)))
  end.
Proof.
  unfold Cmd_run, bind, lift, py_join, subprocess_run, log, emit, ret, raise,
    json_loads, exchange.
  destruct (as_strs (full_cmd self c)) as [argv|]; [|reflexivity].
  destruct (relayer a argv) as [a' stdout]; simpl.
  now destruct (loads (last_line stdout)).
Qed.

(** A descriptor with an argument that is not a string makes Cmd.run
    raise TypeError before anything happens: nothing is logged, no child
    is spawned, the relayer is left as it was; and so for
    cmd.run(c).success(). *)
Theorem Cmd_run_type_error {C T} `{Cmd C T} (self : C) (c : str) (a : Agent) :
  as_strs (args self) = None ->
  Cmd_run loads Agent relayer self c a = (Err TypeError, a, [])
  /\ exec self c a = (Err TypeError, a, []).
Proof.
  intro S. split.
  - now rewrite Cmd_run_eq, full_cmd_strs, S.
  - now rewrite run_success_eq, full_cmd_strs, S.
Qed.


Lemma to_cmd_ok {C T} `{Cmd C T} (self : C) (line : str) :
  to_cmd self = Ok line ->
  exists operands,
    as_strs (args self) = Some operands
    /\ line = name self ++ [32%N] ++ str_join [32%N] operands.
Proof.
  unfold to_cmd, py_join. destruct (as_strs (args self)) as [operands|]; [|discriminate].
  simpl. intro E. injection E as <-. now exists operands.
Qed.

Lemma as_strs_length (items : list Any) (operands : list str) :
  as_strs items = Some operands -> length operands = length items.
Proof.
  revert operands. induction items as [|v items IH]; simpl; intros operands E.
  - now injection E as <-.
  - destruct v; try discriminate. destruct (as_strs items) as [l|]; [|discriminate].
    injection E as <-. simpl. now rewrite (IH l).
Qed.

Lemma command_line_join (c nm : str) (operands : list str) :
  operands <> [] ->
  str_join [32%N] (argv_of c nm operands)
  = launcher_text ++ c ++ [32%N] ++ nm ++ [32%N] ++ str_join [32%N] operands.
Proof.
  intro No. unfold argv_of.
  change (lit "cargo run --bin relayer -- -c ") with launcher_text.
  destruct (str_split_cons 32 (launcher_text ++ c)) as (p1 & ps1 & E1).
  destruct (str_split_cons 32 nm) as (p2 & ps2 & E2).
  rewrite str_join_app; [| rewrite E1; discriminate | rewrite E2; discriminate].
  rewrite str_join_app; [| rewrite E2; discriminate | exact No].
  rewrite !str_split_join. now rewrite <- !app_assoc.
Qed.

(** The line Cmd.run logs first is the launcher text, the configuration
    as it was given, a space, and what to_cmd renders: splitting at
    spaces and joining with spaces gives the text back. *)
Theorem Cmd_run_logs_command_line {C T} `{Cmd C T} (self : C) (c : str) (a : Agent)
  (line : str) :
  to_cmd self = Ok line -> args self <> [] ->
  exists rest,
    events (Cmd_run loads Agent relayer self c a)
    = Logged DEBUG [Lit (launcher_text ++ c ++ [32%N] ++ line)] :: rest.
Proof.
  intros Tc Na. apply to_cmd_ok in Tc as (operands & S & ->).
  assert (No : operands <> []).
  { intros ->. apply as_strs_length in S. destruct (args self); [congruence | discriminate]. }
  rewrite Cmd_run_eq, full_cmd_strs, S. unfold events, exchange. cbn [snd].
  change (lit " ") with [32%N]. rewrite (command_line_join _ _ _ No).
  eexists. reflexivity.
Qed.

(** ** Identifiers that are not strings *)

Lemma as_strs_not_str (before after : list Any) (v : Any) :
  is_str v = false -> as_strs (before ++ v :: after) = None.
Proof.
  intro N. rewrite as_strs_app. destruct (as_strs before); [|reflexivity].
  destruct v; try reflexivity. discriminate.
Qed.

(** When CREATE returns a client id that is not a string, the lifecycle
    raises TypeError at the first QUERY: it has issued CREATE alone,
    paused once, and spawned nothing more. *)
Theorem lifecycle_non_string_client_id (c : str) (dst src : ChainId) (a : Agent)
  (client : TxCreateClientRes.t) :
  let created := create_client loads Agent relayer c dst src a in
  outcome created = Ok client ->
  is_str (TxCreateClientRes.client_id client) = false ->
  let o := create_update_query_client loads Agent relayer c dst src a in
  outcome o = Err TypeError
  /\ events o = events created ++ pause
  /\ commands (events o) = [ACreateClient (TxCreateClient.mk dst src)].
Proof.
  intros created R N o.
  assert (Q : forall a', query_client_state loads Agent relayer c dst
                           (TxCreateClientRes.client_id client) a'
                         = (Err TypeError, a', [])).
  { intro a'. rewrite query_client_state_eq, step_eq, full_cmd_strs.
    change (args (QueryClientState.mk dst (TxCreateClientRes.client_id client) None false))
      with ([dst] ++ TxCreateClientRes.client_id client :: []).
    now rewrite (as_strs_not_str _ _ _ N). }
  assert (Cs : commands (events created) = [ACreateClient (TxCreateClient.mk dst src)]).
  { unfold created in *. rewrite create_client_eq in *.
    apply step_returns in R as (argv & x & _ & _ & _ & _ & Ev).
    rewrite Ev, !commands_app. reflexivity. }
  unfold o, create_update_query_client, bind. unfold created, outcome, events in *.
  destruct (create_client loads Agent relayer c dst src a) as [[r a1] t1].
  simpl in R, Cs. subst r. simpl. rewrite Q. simpl.
  split; [reflexivity|]. split; [reflexivity|].
  now rewrite commands_app, Cs.
Qed.

Ltac peel R x :=
  let E := fresh "E" in
  let R1 := fresh "R" in
  apply bind_returns in R as (x & R1 & R & E); cbv beta in R, E; rewrite E; clear E.

Lemma step_strings {C T X} `{Cmd C T} (self : C) (c : str) (a : Agent)
  (f : T -> X) (message : T -> list Frag) (v : X) :
  outcome (finish f message (exec self c a)) = Ok v ->
  Forall (fun item => is_str item = true) (args self).
Proof.
  intro R. apply step_returns in R as (argv & x & S & _).
  rewrite full_cmd_strs in S.
  destruct (as_strs (args self)) as [operands|] eqn:Sa; [clear S | discriminate].
  revert operands Sa. induction (args self) as [|item items IH]; intros operands Sa.
  - constructor.
  - simpl in Sa. destruct item; try discriminate.
    destruct (as_strs items) as [l|]; [|discriminate].
    constructor; [reflexivity | now apply (IH l)].
Qed.

(** A lifecycle that returns has returned a string, and was given
    strings: an identifier that is not one cannot be rendered into the
    next command. *)
Theorem lifecycle_returns_strings (c : str) (dst src : ChainId) (a : Agent) (v : ClientId) :
  outcome (create_update_query_client loads Agent relayer c dst src a) = Ok v ->
  is_str dst = true /\ is_str src = true /\ is_str v = true.
Proof.
  intro R. unfold create_update_query_client in R.
  apply bind_returns in R as (client & _ & R & _). cbv beta in R.
  apply bind_returns in R as (u1 & _ & R & _). cbv beta in R.
  apply bind_returns in R as (q1 & _ & R & _). cbv beta in R.
  apply bind_returns in R as (u2 & _ & R & _). cbv beta in R.
  apply bind_returns in R as (upd & Ru & R & _). cbv beta in R.
  apply bind_returns in R as (u3 & _ & R & _). cbv beta in R.
  apply bind_returns in R as (q2 & _ & R & _). cbv beta in R.
  apply bind_returns in R as (u4 & _ & R & _). cbv beta in R.
  injection R as <-.
  rewrite update_client_eq in Ru. apply step_strings in Ru.
  inversion Ru as [|? ? S1 Ru1]; subst. inversion Ru1 as [|? ? S2 Ru2]; subst.
  inversion Ru2 as [|? ? S3 _]; subst. auto.
Qed.

Lemma report_quiet (differs : bool) (message : list Frag) (a : Agent) :
  commands (events ((if differs then log ERROR message else ret tt) a)) = [].
Proof. now destruct differs. Qed.

(** A handshake that returns (a_conn, b_conn) has issued exactly INIT,
    TRY, ACK, CONFIRM, each with the identifiers threaded forward: TRY
    takes a_conn, ACK takes b_conn and a_conn, CONFIRM takes a_conn and
    b_conn; and the chains, the clients and both connection ids are
    strings. *)
Theorem handshake_commands (c : str) (side_a side_b : ChainId)
  (client_a client_b : ClientId) (a : Agent) (a_conn b_conn : ConnectionId) :
  let o := connection_handshake loads Agent relayer c side_a side_b client_a client_b a in
  outcome o = Ok (a_conn, b_conn) ->
  commands (events o) =
    [AConnInit (TxConnInit.mk side_a side_b client_a client_b);
     AConnTry (TxConnTry.mk side_b side_a client_b client_a a_conn);
     AConnAck (TxConnAck.mk side_a side_b client_a client_b b_conn a_conn);
     AConnConfirm (TxConnConfirm.mk side_b side_a client_b client_a a_conn b_conn)]
  /\ Forall (fun v => is_str v = true)
       [side_a; side_b; client_a; client_b; a_conn; b_conn].
Proof.
  intros o R. unfold o, connection_handshake in *.
  peel R x1. peel R u1. peel R x2. peel R u2. peel R x3. peel R r1. peel R u3.
  peel R x4. peel R r2. injection R as <- <-.
  rewrite conn_init_eq, conn_try_eq, conn_ack_eq, conn_confirm_eq in *.
  pose proof (step_strings _ _ _ _ _ _ R4) as Strs.
  apply step_returns in R0 as (argv1 & y1 & _ & _ & -> & _ & ->).
  apply step_returns in R2 as (argv2 & y2 & _ & _ & -> & _ & ->).
  apply step_returns in R4 as (argv3 & y3 & _ & _ & -> & _ & ->).
  apply step_returns in R7 as (argv4 & y4 & _ & _ & -> & _ & ->).
  split.
  - rewrite !commands_app, !report_quiet. reflexivity.
  - simpl in Strs.
    inversion Strs as [|? ? S1 T1]; subst. inversion T1 as [|? ? S2 T2]; subst.
    inversion T2 as [|? ? S3 T3]; subst. inversion T3 as [|? ? S4 T4]; subst.
    inversion T4 as [|? ? S5 T5]; subst. inversion T5 as [|? ? S6 _]; subst.
    repeat constructor; assumption.
Qed.

(** ** What every event of a run is *)

Lemma Forall_bind {X Y} (P : Event -> Prop) (m : M Agent X) (k : X -> M Agent Y)
  (a : Agent) :
  Forall P (events (m a)) ->
  (forall x, Forall P (events (k x (agent_after (m a))))) ->
  Forall P (events (bind m k a)).
Proof.
  intros F1 F2. destruct (outcome (m a)) as [x|e] eqn:R.
  - rewrite (bind_ok _ _ _ _ _ R). unfold events at 1. simpl.
    apply Forall_app. split; [exact F1 | apply F2].
  - now rewrite (bind_err _ _ _ _ _ R).
Qed.

Lemma Forall_step {C T X} `{Cmd C T} (P : Event -> Prop) (self : C) (c : str) (a : Agent)
  (f : T -> X) (message : T -> list Frag) :
  (forall level text, level <> ERROR -> P (Logged level text)) ->
  (forall argv stdout,
     as_strs (full_cmd self c) = Some argv -> P (Spawned (upcast self) argv stdout)) ->
  Forall P (events (finish f message (exec self c a))).
Proof.
  intros Pl Ps. rewrite step_eq.
  destruct (as_strs (full_cmd self c)) as [argv|] eqn:S; [|constructor].
  cbv zeta. destruct (answer loads self (snd (relayer a argv))); unfold events; simpl;
    repeat constructor; try (apply Pl; discriminate); now apply Ps.
Qed.

Lemma Forall_split (P : Event -> Prop) (a : Agent) :
  (forall ms, P (Slept ms)) -> (forall text, P (Printed text)) ->
  Forall P (events (split a)).
Proof. intros Ps Pp. repeat constructor; auto. Qed.

Lemma full_cmd_launcher {C T} `{Cmd C T} (self : C) (c : str) (argv : list str) :
  as_strs (full_cmd self c) = Some argv ->
  exists operands,
    as_strs (args self) = Some operands
    /\ argv = launcher ++ str_split 32 c ++ str_split 32 (name self) ++ operands.
Proof.
  rewrite full_cmd_strs. destruct (as_strs (args self)) as [operands|]; [|discriminate].
  intro E. injection E as <-. exists operands. split; [reflexivity|].
  unfold argv_of.
  change (lit "cargo run --bin relayer -- -c " ++ c) with (launcher_text ++ c).
  now rewrite launcher_split, <- app_assoc.
Qed.

Ltac each_event step report :=
  repeat match goal with
         | |- Forall _ (events (bind _ _ _)) => apply Forall_bind; [|intros ?]
         | |- Forall _ (events (split _)) => apply Forall_split; intros; exact I
         | |- Forall _ (events (ret _ _)) => constructor
         | |- Forall _ (events ((if ?b then _ else _) _)) => report b
         | |- Forall _ (events (create_client _ _ _ _ _ _ _)) =>
             rewrite create_client_eq; step
         | |- Forall _ (events (update_client _ _ _ _ _ _ _ _)) =>
             rewrite update_client_eq; step
         | |- Forall _ (events (query_client_state _ _ _ _ _ _ _)) =>
             rewrite query_client_state_eq; step
         | |- Forall _ (events (conn_init _ _ _ _ _ _ _ _ _)) =>
             rewrite conn_init_eq; step
         | |- Forall _ (events (conn_try _ _ _ _ _ _ _ _ _ _)) =>
             rewrite conn_try_eq; step
         | |- Forall _ (events (conn_ack _ _ _ _ _ _ _ _ _ _ _)) =>
             rewrite conn_ack_eq; step
         | |- Forall _ (events (conn_confirm _ _ _ _ _ _ _ _ _ _ _)) =>
             rewrite conn_confirm_eq; step
         end.

Ltac spawn_step :=
  apply Forall_step;
  [ intros; exact I
  | let argv := fresh "argv" in
    let S := fresh "S" in
    intros argv ? S; apply full_cmd_launcher in S; exact S ].

Ltac spawn_report b := destruct b; repeat constructor.

(** Every child a run spawns is given the launcher tokens, the tokens
    of the configuration, the tokens of the operation name of its
    descriptor and the descriptor's arguments, all of them strings, and
    nothing else. *)
Theorem run_spawns_command_lines (c : str) (a : Agent) :
  Forall (spawned_for c) (events (run loads Agent relayer c a)).
Proof.
  unfold run, create_update_query_client, connection_handshake. cbv zeta.
  each_event spawn_step spawn_report.
Qed.

Ltac quiet_step :=
  apply Forall_step; [intros [] ? N; try exact I; now contradiction N | intros; exact I].

Ltac quiet_report b := fail.

Ltac mismatch_report b :=
  let B := fresh "B" in
  destruct b eqn:B; repeat constructor;
  eexists _, _, _; split; [|split; [exact B | reflexivity]]; auto.

(** The client lifecycle logs nothing at error level, and every
    error-level log of a run is the report of a connection id that
    differs from the expected one, at ACK or at CONFIRM. *)
Theorem run_error_logs (c : str) (a : Agent) :
  (forall dst src a', Forall no_error_log
     (events (create_update_query_client loads Agent relayer c dst src a')))
  /\ Forall reports_mismatch_only (events (run loads Agent relayer c a)).
Proof.
  split.
  - intros dst src a'. unfold create_update_query_client.
    each_event quiet_step quiet_report.
  - unfold run, create_update_query_client, connection_handshake. cbv zeta.
    each_event quiet_step mismatch_report.
Qed.

(** ** Errors of any kind *)

Lemma halts_quiet {X} (o : Result X * Agent * list Event) :
  commands (events o) = [] -> halts_on_error loads o.
Proof.
  intros Q pre cmd argv stdout post e E _. now apply commands_in in E.
Qed.

Lemma halts_bind {X Y} (m : M Agent X) (k : X -> M Agent Y) (a : Agent) :
  halts_on_error loads (m a) ->
  (forall x, halts_on_error loads (k x (agent_after (m a)))) ->
  halts_on_error loads (bind m k a).
Proof.
  intros S1 S2 pre cmd argv stdout post e E F.
  destruct (outcome (m a)) as [x|e'] eqn:R.
  - rewrite (bind_ok _ _ _ _ _ R) in *. unfold events at 1 in E. simpl in E.
    unfold outcome at 1. simpl.
    apply app_eq_app in E as [mid [[E1 E2] | [E1 E2]]].
    + destruct mid as [|ev mid].
      * simpl in E2. symmetry in E2. exact (S2 x [] cmd argv stdout post e E2 F).
      * injection E2 as <- E2. destruct (S1 _ _ _ _ _ _ E1 F) as [Bad _].
        rewrite R in Bad. discriminate.
    + exact (S2 x _ _ _ _ _ _ E2 F).
  - rewrite (bind_err _ _ _ _ _ R) in *.
    destruct (S1 _ _ _ _ _ _ E F) as [Re Q]. rewrite R in Re. injection Re as ->.
    split; [reflexivity | exact Q].
Qed.

Lemma halts_step {C T X} `{Cmd C T} (self : C) (c : str) (a : Agent)
  (f : T -> X) (message : T -> list Frag) (wrap : T -> AnyRes) :
  (forall reply, success_any (upcast self) reply
                 = rbind (success (mkCmdResult self reply)) (fun r => Ok (wrap r))) ->
  halts_on_error loads (finish f message (exec self c a)).
Proof.
  intro W. rewrite step_eq. destruct (as_strs (full_cmd self c)) as [argv|];
    [|now apply halts_quiet].
  intros pre cmd argv' stdout post e E F. cbv zeta in *.
  assert (A : forall out e', answer_any loads (upcast self) out = Err e' ->
                             answer loads self out = Err e').
  { intros out e'. unfold answer_any, answer.
    destruct (json_loads loads (last_line out)) as [reply|]; simpl;
      [|intro E'; now injection E' as ->].
    rewrite W. destruct (success (mkCmdResult self reply)); simpl; intro E';
      [discriminate | now injection E' as ->]. }
  destruct (answer loads self (snd (relayer a argv))) as [x|e0] eqn:An;
    unfold events in E; simpl in E.
  - apply (exchange_split _ _ _ _ _ _ [Logged INFO (message x)]) in E
      as (-> & -> & Q); [|reflexivity].
    apply A in F. rewrite F in An. discriminate.
  - rewrite <- (app_nil_r (exchange _ _ _)) in E.
    apply exchange_split in E as (-> & -> & Q); [|reflexivity].
    apply A in F. rewrite F in An. injection An as <-. now split.
Qed.

Ltac halt_step := eapply halts_step; intro; reflexivity.

Ltac halt :=
  repeat match goal with
         | |- halts_on_error _ (bind _ _ _) => apply halts_bind; [|intros ?]
         | |- halts_on_error _ (split _) => apply halts_quiet; reflexivity
         | |- halts_on_error _ (ret _ _) => apply halts_quiet; reflexivity
         | |- halts_on_error _ ((if ?b then _ else _) _) =>
             destruct b; apply halts_quiet; reflexivity
         | |- halts_on_error _ (create_client _ _ _ _ _ _ _) =>
             rewrite create_client_eq; halt_step
         | |- halts_on_error _ (update_client _ _ _ _ _ _ _ _) =>
             rewrite update_client_eq; halt_step
         | |- halts_on_error _ (query_client_state _ _ _ _ _ _ _) =>
             rewrite query_client_state_eq; halt_step
         | |- halts_on_error _ (conn_init _ _ _ _ _ _ _ _ _) =>
             rewrite conn_init_eq; halt_step
         | |- halts_on_error _ (conn_try _ _ _ _ _ _ _ _ _ _) =>
             rewrite conn_try_eq; halt_step
         | |- halts_on_error _ (conn_ack _ _ _ _ _ _ _ _ _ _ _) =>
             rewrite conn_ack_eq; halt_step
         | |- halts_on_error _ (conn_confirm _ _ _ _ _ _ _ _ _ _ _) =>
             rewrite conn_confirm_eq; halt_step
         end.

Lemma run_halts (c : str) (a : Agent) : halts_on_error loads (run loads Agent relayer c a).
Proof.
  unfold run, create_update_query_client, connection_handshake. cbv zeta. halt.
Qed.

(** Nothing in a run catches anything: whatever the answer to a command
    raises (a decode error, AttributeError for a reply that is no object,
    ExpectedSuccess, or the KeyError, IndexError or TypeError of a payload
    of another shape), the run raises that same error and issues no
    command after that one. *)
Theorem run_halts_on_any_error (c : str) (a : Agent) :
  forall pre cmd argv stdout post e,
    events (run loads Agent relayer c a) = pre ++ Spawned cmd argv stdout :: post ->
    answer_any loads cmd stdout = Err e ->
    outcome (run loads Agent relayer c a) = Err e /\ commands post = [].
Proof. exact (run_halts c a). Qed.

(** ** Runs that return *)

Lemma success_any_eq (cmd : AnyCmd) (reply : list (str * Any)) :
  success_any cmd (PyDict reply) =
  if py_eq (get_or reply (lit "status") (PyStr (lit "unknown"))) (PyStr (lit "success"))
  then process_any cmd (get_or reply (lit "result") (PyDict []))
  else Err (ExpectedSuccess cmd
              (get_or reply (lit "status") (PyStr (lit "unknown")))
              (get_or reply (lit "result") (PyDict []))).
Proof.
  destruct cmd; unfold success_any; rewrite success_eq;
    now destruct (py_eq (get_or reply (lit "status") (PyStr (lit "unknown")))
                        (PyStr (lit "success"))).
Qed.

Lemma get_or_hit (reply : list (str * Any)) (key : str) (default v : Any) :
  get_or reply key default = v -> v <> default -> dict_get reply key = Some v.
Proof.
  unfold get_or, py_or. destruct (dict_get reply key) as [w|]; simpl.
  - destruct (truthy w); congruence.
  - congruence.
Qed.

Lemma answer_any_ok (cmd : AnyCmd) (argv : list str) (stdout : str) (r : AnyRes) :
  answer_any loads cmd stdout = Ok r -> answered loads (Spawned cmd argv stdout).
Proof.
  unfold answer_any, json_loads, answered, status_success, reply_of.
  destruct (loads (last_line stdout)) as [reply|]; [|discriminate]. simpl.
  destruct reply as [| | | | | |reply];
    try (destruct cmd; discriminate).
  rewrite success_any_eq.
  destruct (py_eq (get_or reply (lit "status") (PyStr (lit "unknown")))
                  (PyStr (lit "success"))) eqn:St; [|discriminate].
  apply py_eq_str in St.
  pose proof (get_or_hit _ _ _ _ St ltac:(discriminate)) as Hit. clear St. rename Hit into St.
  intro P. apply process_any_expected in P. rewrite St. split; [apply str_eqb_refl|].
  exists reply, (get_or reply (lit "result") (PyDict [])), r.
  split; [reflexivity|]. split; [|exact P].
  apply (get_or_hit _ _ (PyDict [])); [reflexivity|]. intro E. rewrite E in P.
  destruct cmd; discriminate.
Qed.

Lemma issued_beats (t : list Event) : issued (beats t) = map step_of (commands t).
Proof.
  induction t as [|ev t IH]; [reflexivity|]. destruct ev; simpl; congruence.
Qed.

(** A run that returns has issued its twelve steps in order, and has
    received for every one of them a reply with status "success" whose
    result holds index 0, the operation's tag and its field keys: no
    other reply lets a run return. *)
Theorem run_returns_answered (c : str) (a : Agent) :
  outcome (run loads Agent relayer c a) = Ok tt ->
  map step_of (commands (events (run loads Agent relayer c a))) = run_steps
  /\ Forall (answered loads) (events (run loads Agent relayer c a)).
Proof.
  intro R. split.
  - pose proof (run_follows loads Agent relayer c a) as F. unfold follows in F.
    rewrite R in F. now rewrite <- issued_beats, F.
  - apply Forall_forall. intros ev I.
    destruct ev as [| cmd argv stdout | |]; try exact Logic.I.
    apply in_split in I as (pre & post & E).
    destruct (answer_any loads cmd stdout) as [r|e] eqn:An.
    + now apply (answer_any_ok _ _ _ r).
    + destruct (run_halts c a _ _ _ _ _ _ E An) as [Bad _].
      rewrite R in Bad. discriminate.
Qed.

(** ** Debug lines around a spawn *)








(** ** The first command *)



End Further.

(** * Further runs on scripted replies *)

Lemma full_cmd_tokens_witness :
  as_strs (full_cmd create01 spaced_config)
    = Some (launcher ++ [lit "my"; lit "relayer.toml"]
              ++ [lit "tx"; lit "raw"; lit "create-client"] ++ [lit "ibc-0"; lit "ibc-1"])
  /\ length (str_split 32 spaced_config) = 2.
Proof.
  assert (S : as_strs (args create01) = Some [lit "ibc-0"; lit "ibc-1"]) by reflexivity.
  destruct (full_cmd_tokens create01 spaced_config _ S) as (tokens & count & _).
  split; [rewrite tokens; reflexivity | rewrite count; reflexivity].
Defined.

Lemma last_line_unbroken_witness :
  last_line (render boom ++ [13%N; 10%N]) = render boom
  /\ last_line (render boom ++ [133%N]) = render boom.
Proof.
  split.
  - destruct (last_line_unbroken (render boom ++ [13%N; 10%N])) as (_ & _ & _ & crlf).
    apply crlf; [vm_compute|]; reflexivity.
  - destruct (last_line_unbroken (render boom ++ [133%N])) as (_ & _ & one & _).
    apply (one _ 133%N); [vm_compute| |]; reflexivity.
Defined.

Lemma process_reads_first_element_witness :
  process_any update0
    (PyList [obj [("noise", PyNone);
                  ("UpdateClient", obj [("consensus_height", odd_height)])]%string;
             PyInt 3])
  = process_any update0 (tagged "UpdateClient" [("consensus_height", odd_height)]%string).
Proof.
  destruct (process_reads_first_element update0
              (obj [("UpdateClient", obj [("consensus_height", odd_height)])]%string)
              [PyInt 3] []) as (tail & key).
  etransitivity; [|exact tail].
  exact (key [(lit "UpdateClient", obj [("consensus_height", odd_height)]%string)]
             (lit "noise") PyNone eq_refl eq_refl).
Defined.

Lemma Cmd_run_type_error_witness :
  Cmd_run table_loads (list str) scripted update7 config good_script
    = (Err TypeError, good_script, []).
Proof.
  apply (Cmd_run_type_error table_loads (list str) scripted update7 config good_script).
  reflexivity.
Defined.

Lemma Cmd_run_logs_command_line_witness :
  exists rest,
    events (Cmd_run table_loads (list str) scripted create01 config good_script)
    = Logged DEBUG
        [Lit (lit "cargo run --bin relayer -- -c relayer.toml tx raw create-client ibc-0 ibc-1")]
      :: rest.
Proof.
  destruct (Cmd_run_logs_command_line table_loads (list str) scripted create01 config
              good_script (lit "tx raw create-client ibc-0 ibc-1"))
    as [rest E]; [reflexivity | discriminate |].
  exists rest. exact E.
Defined.

Lemma lifecycle_non_string_client_id_witness :
  outcome numbered_lifecycle = Err TypeError
  /\ commands (events numbered_lifecycle) = [ACreateClient create01].
Proof.
  destruct (lifecycle_non_string_client_id wider_loads (list str) scripted config
              ibc0 ibc1 numbered_script (TxCreateClientRes.mk (PyInt 7)))
    as (R & _ & Cs); [vm_compute; reflexivity | reflexivity |].
  split; [exact R | exact Cs].
Defined.

Lemma lifecycle_returns_strings_witness :
  is_str ibc0 = true /\ is_str ibc1 = true /\ is_str (text "07-tendermint-0") = true.
Proof.
  apply (lifecycle_returns_strings table_loads (list str) scripted config ibc0 ibc1
           (lifecycle_script "07-tendermint-0")).
  vm_compute. reflexivity.
Defined.

Lemma handshake_commands_witness :
  map step_of (commands (events good_handshake)) = [INIT; TRY; ACK; CONFIRM]
  /\ commands (events mismatched_handshake) = commands (events good_handshake).
Proof.
  destruct (handshake_commands table_loads (list str) scripted config ibc1 ibc0
              (text "07-tendermint-1") (text "07-tendermint-0")
              (handshake_script "connection-0")
              (text "connection-0") (text "connection-1"))
    as (good & _); [vm_compute; reflexivity|].
  destruct (handshake_commands table_loads (list str) scripted config ibc1 ibc0
              (text "07-tendermint-1") (text "07-tendermint-0")
              (handshake_script "connection-7")
              (text "connection-0") (text "connection-1"))
    as (odd & _); [vm_compute; reflexivity|].
  fold good_handshake in good. fold mismatched_handshake in odd.
  split; [now rewrite good | now rewrite good, odd].
Defined.

Lemma run_halts_on_any_error_witness :
  outcome array_run = Err AttributeError
  /\ outcome (run table_loads (list str) scripted config
                [padded (created "07-tendermint-0")]) = Err JSONDecodeError.
Proof.
  split.
  - refine (proj1 (run_halts_on_any_error wider_loads (list str) scripted config
                     [printed bare_array]
                     (firstn 1 (events array_run)) (ACreateClient create01)
                     (argv_of config (lit "tx raw create-client") [lit "ibc-0"; lit "ibc-1"])
                     (printed bare_array) (skipn 2 (events array_run))
                     AttributeError _ _)); vm_compute; reflexivity.
  - set (o := run table_loads (list str) scripted config
                [padded (created "07-tendermint-0")]).
    refine (proj1 (run_halts_on_any_error table_loads (list str) scripted config
                     [padded (created "07-tendermint-0")]
                     (firstn 1 (events o)) (ACreateClient create01)
                     (argv_of config (lit "tx raw create-client") [lit "ibc-0"; lit "ibc-1"])
                     (padded (created "07-tendermint-0")) (skipn 2 (events o))
                     JSONDecodeError _ _)); vm_compute; reflexivity.
Defined.

Lemma run_returns_answered_witness :
  map step_of (commands (events good_run)) = run_steps
  /\ Forall (answered table_loads) (events good_run).
Proof.
  apply (run_returns_answered table_loads (list str) scripted config good_script).
  vm_compute. reflexivity.
Defined.

